(** * df_to_ppt: a pandas DataFrame rendered as a python-pptx table

    Shallow embedding of [src/df_to_ppt.py] (Python 3 reading:
    [six.integer_types = (int,)], [round] on an [int] returns an [int]).

    - Python [int] is [Z]; a Python [float] is modelled by the exact rational
      it denotes ([Q]), so binary rounding error is outside the model;
      a Python [str] is a [string] whose characters are code points below 256;
      a value of any other type is an opaque object.
    - Exceptions are the constructors of [exn]; a pure fallible computation
      returns [res A]; code that mutates the slide runs in the state and
      exception monad [M], in which the state reached when an exception is
      raised is kept, as it is in Python.
    - The builtins [format] and [str] are host functions: what the code
      relies on ([format(v, '')], [format(int, ',')], [format(str, 's')],
      [str(int)], [str(str)]) is written out; the rest of the format
      mini-language and the rendering of floats are taken from a [Host].
    - python-pptx is modelled by the objects the code reads and writes: the
      shapes of the slide, the graphic frame of a table, its grid of cells
      and its columns. A shape handle is the position of the shape on the
      slide, so that an assignment through the handle changes the slide. *)

From Stdlib Require Import ZArith QArith Qabs String Ascii List Lia Bool.
From Stdlib Require DecimalString.
From stdpp Require Import base list.
Import ListNotations.

Open Scope string_scope.
Open Scope Z_scope.

(** ** Exceptions and fallible results *)

Inductive exn : Type :=
  | IndexError
  | ValueError
  | TypeError
  | AttributeError
  | ZeroDivisionError.

Inductive res (A : Type) : Type :=
  | Ok (a : A)
  | Raise (e : exn).
Arguments Ok {A} a.
Arguments Raise {A} e.

Definition res_bind {A B} (r : res A) (k : A -> res B) : res B :=
  match r with
  | Ok a => k a
  | Raise e => Raise e
  end.

Definition is_ok {A} (r : res A) : bool :=
  match r with Ok _ => true | Raise _ => false end.

#[global] Instance res_ret : MRet res := fun A a => Ok a.
#[global] Instance res_mbind : MBind res := fun A B k r => res_bind r k.

(** ** Values of a table cell *)

(** An [int], a [float], a [str], or an object of another type, which is
    modelled by the text [str] shows for it. *)
Inductive pyvalue : Type :=
  | VInt (z : Z)
  | VFloat (x : Q)
  | VStr (s : string)
  | VObject (repr : string).

(** ** Strings *)

(** [s.endswith(c)] for a one-character suffix. *)
Fixpoint endswith (s : string) (c : ascii) : bool :=
  match s with
  | EmptyString => false
  | String a EmptyString => Ascii.eqb a c
  | String _ rest => endswith rest c
  end.

(** [s[i]] for [0 <= i]; out of range raises [IndexError]. *)
Definition str_index (s : string) (i : nat) : res ascii :=
  match String.get i s with
  | Some c => Ok c
  | None => Raise IndexError
  end.

(** [int(c)] for a one-character string: its value when [c] is a decimal
    digit, [ValueError] otherwise. *)
Definition int_of_char (c : ascii) : res Z :=
  let n := Z.of_N (N_of_ascii c) in
  if (48 <=? n) && (n <=? 57) then Ok (n - 48) else Raise ValueError.

(** [str(n)] for an [int]. *)
Definition str_of_int (z : Z) : string :=
  DecimalString.NilZero.string_of_int (Z.to_int z).

Definition digits_of_nat (n : N) : string :=
  DecimalString.NilZero.string_of_uint (N.to_uint n).

(** Grouping of a reversed digit string: a comma after every third digit
    that has a digit after it. *)
Fixpoint group_rev (k : nat) (ds : list ascii) : list ascii :=
  match ds with
  | [] => []
  | d :: rest =>
      match k, rest with
      | O, _ :: _ => d :: ","%char :: group_rev 2 rest
      | O, [] => [d]
      | S k', _ => d :: group_rev k' rest
      end
  end.

(** [format(n, ',')] for an [int]: the decimal digits in groups of three from
    the right, separated by commas, after the sign. *)
Definition format_thousands (z : Z) : string :=
  let ds := list_ascii_of_string (digits_of_nat (Z.abs_N z)) in
  let body := string_of_list_ascii (rev (group_rev 2 (rev ds))) in
  if z <? 0 then String "-"%char body else body.

(** The string without its commas. *)
Definition strip_commas (s : string) : string :=
  string_of_list_ascii
    (List.filter (fun c => negb (Ascii.eqb c ","%char)) (list_ascii_of_string s)).

(** ** The host's [str] and [format] *)

Record Host : Type := {
  (** [str(x)] for a float. *)
  float_str : Q -> string;
  (** [format(v, spec)] outside the cases written out in [py_format]. *)
  format_spec : pyvalue -> string -> res string
}.

Definition py_str (host : Host) (v : pyvalue) : string :=
  match v with
  | VInt z => str_of_int z
  | VFloat x => float_str host x
  | VStr s => s
  | VObject repr => repr
  end.

Definition py_format (host : Host) (v : pyvalue) (spec : string) : res string :=
  if String.eqb spec "" then Ok (py_str host v)
  else match v with
       | VInt z =>
           if String.eqb spec "," then Ok (format_thousands z)
           else format_spec host v spec
       | VStr s =>
           if String.eqb spec "s" then Ok s else format_spec host v spec
       | VFloat _ | VObject _ => format_spec host v spec
       end.

(** ** Significant-digit rounding (line 17) *)

(** [floor(log10(x))] for an integer [0 < x]: one less than the number of
    decimal digits. [math.log10] computes in double precision; the model
    takes the exact value. *)
Fixpoint ilog10_aux (fuel : nat) (x : Z) : Z :=
  match fuel with
  | O => 0
  | S fuel' => if x <? 10 then 0 else 1 + ilog10_aux fuel' (x / 10)
  end.

Definition ilog10 (x : Z) : Z :=
  ilog10_aux (S (Z.to_nat (Z.log2 x))) x.

(** The integer nearest to [a / b] for [0 < b], a tie going to the even one. *)
Definition div_half_even (a b : Z) : Z :=
  let q := a / b in
  let r := a mod b in
  if 2 * r <? b then q
  else if b <? 2 * r then q + 1
  else if Z.even q then q else q + 1.

(** [round(x, ndigits)] for an [int]: [x] itself when [0 <= ndigits], else
    the nearest multiple of [10 ** -ndigits], ties to the even multiple. *)
Definition round_int (x ndigits : Z) : Z :=
  if 0 <=? ndigits then x
  else let p := 10 ^ (- ndigits) in p * div_half_even x p.

(** [10 ** k] as a rational, for any integer [k]. *)
Definition pow10 (k : Z) : Q :=
  if 0 <=? k then inject_Z (10 ^ k) else 1 # Z.to_pos (10 ^ (- k)).

(** [floor(log10(x))] for a rational [0 < x]: the difference of the orders
    of magnitude of the numerator and the denominator, or one less. *)
Definition qlog10 (x : Q) : Z :=
  let k := ilog10 (Qnum x) - ilog10 (Zpos (Qden x)) in
  if Qle_bool (pow10 k) x then k else k - 1.

(** [round(x, ndigits)] for a float, on the exact value: the nearest
    multiple of [10 ** -ndigits], ties to even. *)
Definition round_float (x : Q) (ndigits : Z) : Q :=
  if 0 <=? ndigits
  then
    let p := 10 ^ ndigits in
    div_half_even (Qnum x * p) (Zpos (Qden x)) # Z.to_pos p
  else
    let p := 10 ^ (- ndigits) in
    inject_Z (p * div_half_even (Qnum x) (Zpos (Qden x) * p)).

Definition py_abs (x : pyvalue) : res pyvalue :=
  match x with
  | VInt z => Ok (VInt (Z.abs z))
  | VFloat q => Ok (VFloat (Qabs q))
  | VStr _ | VObject _ => Raise TypeError
  end.

(** [int(floor(log10(a)))]: [ValueError] (math domain error) unless
    [0 < a]. *)
Definition floor_log10 (a : pyvalue) : res Z :=
  match a with
  | VInt z => if 0 <? z then Ok (ilog10 z) else Raise ValueError
  | VFloat q => if Qle_bool q 0 then Raise ValueError else Ok (qlog10 q)
  | VStr _ | VObject _ => Raise TypeError
  end.

Definition py_round (x : pyvalue) (ndigits : Z) : res pyvalue :=
  match x with
  | VInt z => Ok (VInt (round_int z ndigits))
  | VFloat q => Ok (VFloat (round_float q ndigits))
  | VStr _ | VObject _ => Raise TypeError
  end.

(** [round_to_n = lambda x, n: round(x, -int(floor(log10(abs(x)))) + (n - 1))] *)
Definition round_to_n (x : pyvalue) (n : Z) : res pyvalue :=
  a ← py_abs x;
  k ← floor_log10 a;
  py_round x (- k + (n - 1)).

(** ** [_do_formatting] (lines 19-41) *)

(** [type(value) in six.integer_types] *)
Definition is_integer (v : pyvalue) : bool :=
  match v with VInt _ => true | _ => false end.

(** Lines 22-35: the value and the format specification that reach the
    final [format] call. *)
Definition select_format (value : pyvalue) (format_str : string)
  : res (pyvalue * string) :=
  if String.eqb format_str "" then
    Ok (value,
        match value with
        | VInt _ => ","
        | VFloat _ => "f"
        | VStr _ => "s"
        | VObject _ => format_str
        end)
  else
    c0 ← str_index format_str 0;
    if Ascii.eqb c0 "."%char then
      '(value, format_str) ←
        (if endswith format_str "R"%char then
           if is_integer value then
             c1 ← str_index format_str 1;
             n ← int_of_char c1;
             value ← round_to_n value n;
             Ok (value, ",")
           else Ok (value, format_str)
         else Ok (value, format_str));
      if negb (endswith format_str "G"%char)
      then Ok (value, format_str ++ "G")
      else Ok (value, format_str)
    else Ok (value, format_str).

(** Lines 36-39: [format], and on any exception the plain [format(value, '')]. *)
Definition format_or_plain (host : Host) (value : pyvalue) (format_str : string)
  : res string :=
  match py_format host value format_str with
  | Ok s => Ok s
  | Raise _ => py_format host value ""
  end.

Definition _do_formatting (host : Host) (value : pyvalue) (format_str : string)
  : res string :=
  '(value, format_str) ← select_format value format_str;
  format_or_plain host value format_str.

(** ** Lengths and position parameters (lines 43-54) *)

(** A position argument of [df_to_table]: [None], a Python [int], a
    [pptx.util.Length] (a count of English Metric Units), or any other
    object. *)
Inductive position : Type :=
  | PNone
  | PInt (n : Z)
  | PLength (emu : Z)
  | PObject (repr : string).

Definition EMUS_PER_CM : Z := 360000.
Definition EMUS_PER_PT : Z := 12700.

(** [pptx.util.Cm(n)] and [pptx.util.Pt(n)] for an [int] argument. *)
Definition Cm (cm : Z) : position := PLength (cm * EMUS_PER_CM).
Definition Pt (pt : Z) : Z := pt * EMUS_PER_PT.

Definition process_position_parameter (param : position) : position :=
  match param with
  | PNone => Cm 4
  | PInt n => Cm n
  | _ => param
  end.

(** ** The python-pptx objects the code reads and writes *)

Record RGBColor : Type := RGB { red : Z; green : Z; blue : Z }.

Inductive PP_ALIGN : Type := ALIGN_LEFT | ALIGN_CENTER.
Inductive MSO_AUTO_SIZE : Type := SHAPE_TO_FIT_TEXT.

Record Font : Type := {
  font_bold : option bool;
  font_size : option Z;
  font_name : option string;
  font_color : option RGBColor
}.

(** The first paragraph of a text frame: [text_frame.paragraphs[0]]. *)
Record Paragraph : Type := {
  para_font : Font;
  para_alignment : option PP_ALIGN
}.

(** [cell.fill]: no fill type chosen, or a solid fill and its colour. *)
Inductive Fill : Type :=
  | NoFill
  | Solid (fore_color : option RGBColor).

Record Cell : Type := {
  cell_text : string;
  cell_auto_size : option MSO_AUTO_SIZE;
  cell_fill : Fill;
  cell_para : Paragraph
}.

(** A column object holds the attributes the code assigns: [width] and
    [height]. *)
Record Column : Type := {
  column_width : Z;
  column_height : option Z
}.

Record Table : Type := {
  cells : list (list Cell);
  columns : list Column
}.

(** The graphic frame [add_table] returns. *)
Record GraphicFrame : Type := {
  shape_name : string;
  shape_left : Z;
  shape_top : Z;
  shape_width : Z;
  shape_height : Z;
  table : Table
}.

Inductive Shape : Type :=
  | TableShape (g : GraphicFrame)
  | OtherShape (name : string).

(** ** The pandas DataFrame *)

Record DataFrame : Type := {
  df_index : list string;
  df_columns : list string;
  df_values : list (list pyvalue)
}.

(** ** The objects a call works on, and the monad of the code *)

(** The two objects passed by reference to [df_to_table]: the DataFrame and
    the slide (its [shapes] collection). A shape handle is the position of
    the shape in the collection. *)
Record World : Type := {
  w_df : DataFrame;
  w_slide : list Shape
}.

Definition M (A : Type) : Type := World -> res A * World.

#[global] Instance M_ret : MRet M := fun A a w => (Ok a, w).
#[global] Instance M_bind : MBind M := fun A B k m w =>
  match m w with
  | (Ok a, w') => k a w'
  | (Raise e, w') => (Raise e, w')
  end.

(** A pure fallible computation inside [M]. *)
Definition lift {A} (r : res A) : M A := fun w => (r, w).

Fixpoint for_each {A} (l : list A) (body : A -> M unit) : M unit :=
  match l with
  | [] => mret tt
  | x :: rest => body x;; for_each rest body
  end.

(** [for i in range(n)] *)
Definition for_range (n : nat) (body : nat -> M unit) : M unit :=
  for_each (seq 0 n) body.

(** [enumerate(l)] *)
Definition enumerate {A} (l : list A) : list (nat * A) :=
  zip (seq 0 (length l)) l.

(** [l[i]] for [0 <= i]. *)
Definition list_index {A} (l : list A) (i : nat) : res A :=
  match l !! i with
  | Some x => Ok x
  | None => Raise IndexError
  end.

(** [m[row, col]] *)
Definition matrix_index (m : list (list pyvalue)) (row col : nat) : res pyvalue :=
  r ← list_index m row; list_index r col.

(** *** Reading the DataFrame *)

Definition df_shape : M (nat * nat) := fun w =>
  (Ok (length (df_index (w_df w)), length (df_columns (w_df w))), w).
Definition df_index_list : M (list string) := fun w => (Ok (df_index (w_df w)), w).
Definition df_columns_list : M (list string) := fun w => (Ok (df_columns (w_df w)), w).
Definition df_as_matrix : M (list (list pyvalue)) := fun w => (Ok (df_values (w_df w)), w).

(** *** Writing the slide *)

Definition empty_font : Font :=
  {| font_bold := None; font_size := None; font_name := None; font_color := None |}.
Definition empty_cell : Cell :=
  {| cell_text := ""; cell_auto_size := None; cell_fill := NoFill;
     cell_para := {| para_font := empty_font; para_alignment := None |} |}.

(** The EMU count of a position argument; an object that is not a number
    cannot be written into the frame ([TypeError]). *)
Definition emu_of (p : position) : res Z :=
  match p with
  | PInt n => Ok n
  | PLength e => Ok e
  | PNone | PObject _ => Raise TypeError
  end.

(** The widths [add_table] gives the columns: an equal share each, the last
    column taking what the division left over. *)
Definition initial_column_width (width : Z) (cols i : nat) : Z :=
  let colwidth := width / Z.of_nat cols in
  if Nat.eqb (S i) cols then width - (Z.of_nat cols - 1) * colwidth else colwidth.

Definition new_table (rows cols : nat) (width : Z) : Table :=
  {| cells := replicate rows (replicate cols empty_cell);
     columns := (fun i => {| column_width := initial_column_width width cols i;
                             column_height := None |}) <$> seq 0 cols |}.

(** [slide.shapes.add_table(rows, cols, left, top, width, height)]: the
    new graphic frame is appended to the shapes of the slide. The library
    divides the width by [cols] and the height by [rows]. *)
Definition add_table (rows cols : nat) (left top width height : position)
  : M nat := fun w =>
  match
    (x ← emu_of left; y ← emu_of top; cx ← emu_of width; cy ← emu_of height;
     if Nat.eqb rows 0 || Nat.eqb cols 0 then Raise ZeroDivisionError
     else Ok {| shape_name := "Table " ++ digits_of_nat (N.of_nat (S (length (w_slide w))));
                shape_left := x; shape_top := y;
                shape_width := cx; shape_height := cy;
                table := new_table rows cols cx |})
  with
  | Ok g =>
      (Ok (length (w_slide w)),
       {| w_df := w_df w; w_slide := w_slide w ++ [TableShape g] |})
  | Raise e => (Raise e, w)
  end.

(** An assignment through the handle [shp] to the graphic frame. *)
Definition shape_update (shp : nat) (f : GraphicFrame -> res GraphicFrame)
  : M unit := fun w =>
  match w_slide w !! shp with
  | Some (TableShape g) =>
      match f g with
      | Ok g' =>
          (Ok tt, {| w_df := w_df w;
                     w_slide := <[shp := TableShape g']> (w_slide w) |})
      | Raise e => (Raise e, w)
      end
  | Some (OtherShape _) => (Raise AttributeError, w)
  | None => (Raise IndexError, w)
  end.

Definition with_table (g : GraphicFrame) (t : Table) : GraphicFrame :=
  {| shape_name := shape_name g; shape_left := shape_left g;
     shape_top := shape_top g; shape_width := shape_width g;
     shape_height := shape_height g; table := t |}.

(** [g.table.cell(i, j)] followed by an assignment [f] to the cell;
    [cell] raises [IndexError] outside the grid. *)
Definition assign_cell (i j : nat) (f : Cell -> res Cell) (g : GraphicFrame)
  : res GraphicFrame :=
  row ← list_index (cells (table g)) i;
  c ← list_index row j;
  c' ← f c;
  Ok (with_table g {| cells := <[i := <[j := c']> row]> (cells (table g));
                      columns := columns (table g) |}).

(** [g.table.columns[i]] followed by an assignment [f] to the column. *)
Definition assign_column (i : nat) (f : Column -> Column) (g : GraphicFrame)
  : res GraphicFrame :=
  c ← list_index (columns (table g)) i;
  Ok (with_table g {| cells := cells (table g);
                      columns := <[i := f c]> (columns (table g)) |}).

(** [g.name = name] *)
Definition assign_name (name : string) (g : GraphicFrame) : res GraphicFrame :=
  Ok {| shape_name := name; shape_left := shape_left g;
        shape_top := shape_top g; shape_width := shape_width g;
        shape_height := shape_height g; table := table g |}.

Definition cell_update (shp i j : nat) (f : Cell -> res Cell) : M unit :=
  shape_update shp (assign_cell i j f).
Definition column_update (shp i : nat) (f : Column -> Column) : M unit :=
  shape_update shp (assign_column i f).
Definition set_name (shp : nat) (name : string) : M unit :=
  shape_update shp (assign_name name).

(** *** The assignments to a cell *)

Definition with_font (c : Cell) (f : Font) : Cell :=
  {| cell_text := cell_text c; cell_auto_size := cell_auto_size c;
     cell_fill := cell_fill c;
     cell_para := {| para_font := f;
                     para_alignment := para_alignment (cell_para c) |} |}.

(** [cell.text = s] *)
Definition set_text (s : string) (c : Cell) : res Cell :=
  Ok {| cell_text := s; cell_auto_size := cell_auto_size c;
        cell_fill := cell_fill c; cell_para := cell_para c |}.

(** [cell.text_frame.auto_size = a] *)
Definition set_auto_size (a : MSO_AUTO_SIZE) (c : Cell) : res Cell :=
  Ok {| cell_text := cell_text c; cell_auto_size := Some a;
        cell_fill := cell_fill c; cell_para := cell_para c |}.

(** [cell.fill.solid()] *)
Definition fill_solid (c : Cell) : res Cell :=
  Ok {| cell_text := cell_text c; cell_auto_size := cell_auto_size c;
        cell_fill := match cell_fill c with
                     | NoFill => Solid None
                     | Solid rgb => Solid rgb
                     end;
        cell_para := cell_para c |}.

(** [cell.fill.fore_color.rgb = rgb]; a fill without a type has no
    foreground colour ([TypeError]). *)
Definition set_fore_color (rgb : RGBColor) (c : Cell) : res Cell :=
  match cell_fill c with
  | NoFill => Raise TypeError
  | Solid _ =>
      Ok {| cell_text := cell_text c; cell_auto_size := cell_auto_size c;
            cell_fill := Solid (Some rgb); cell_para := cell_para c |}
  end.

(** [para.font.bold = b], [para.font.size = n], [para.font.name = s],
    [para.font.color.rgb = rgb], [para.alignment = a], for
    [para = cell.text_frame.paragraphs[0]]. *)
Definition set_font_bold (b : bool) (c : Cell) : res Cell :=
  let f := para_font (cell_para c) in
  Ok (with_font c {| font_bold := Some b; font_size := font_size f;
                     font_name := font_name f; font_color := font_color f |}).
Definition set_font_size (n : Z) (c : Cell) : res Cell :=
  let f := para_font (cell_para c) in
  Ok (with_font c {| font_bold := font_bold f; font_size := Some n;
                     font_name := font_name f; font_color := font_color f |}).
Definition set_font_name (s : string) (c : Cell) : res Cell :=
  let f := para_font (cell_para c) in
  Ok (with_font c {| font_bold := font_bold f; font_size := font_size f;
                     font_name := Some s; font_color := font_color f |}).
Definition set_font_color (rgb : RGBColor) (c : Cell) : res Cell :=
  let f := para_font (cell_para c) in
  Ok (with_font c {| font_bold := font_bold f; font_size := font_size f;
                     font_name := font_name f; font_color := Some rgb |}).
Definition set_alignment (a : PP_ALIGN) (c : Cell) : res Cell :=
  Ok {| cell_text := cell_text c; cell_auto_size := cell_auto_size c;
        cell_fill := cell_fill c;
        cell_para := {| para_font := para_font (cell_para c);
                        para_alignment := Some a |} |}.

Definition set_column_width (w : Z) (c : Column) : Column :=
  {| column_width := w; column_height := column_height c |}.
Definition set_column_height (h : Z) (c : Column) : Column :=
  {| column_width := column_width c; column_height := Some h |}.

(** ** [df_to_table] (lines 57-212) *)

(** The keyword arguments of [df_to_table]. *)
Record Kwargs : Type := {
  kw_left : position;
  kw_top : position;
  kw_width : position;
  kw_height : position;
  kw_colnames : option (list string);
  kw_rownames : option (list string);
  kw_col_formatters : option (list string);
  kw_rounding : option (list Z);
  kw_name : option string;
  kw_white_backgr : bool;
  kw_transposed : bool;
  kw_font_size : Z;
  kw_set_col_width : bool;
  kw_col_width : list Z;
  kw_set_col_height : bool;
  kw_col_height : list Z
}.


(** Lines 121-124 and 174-177: the text of a data cell. *)
Definition cell_string (host : Host) (col_formatters : option (list string))
  (val : pyvalue) (col : nat) : res string :=
  match col_formatters with
  | None => Ok (py_str host val)
  | Some fs => f ← list_index fs col; _do_formatting host val f
  end.

(** Lines 113-114: [for row_index, row_name in enumerate(rownames)]. *)
Definition insert_row_names (shp : nat) (rownames : list string) : M unit :=
  for_each (enumerate rownames) (fun '(row_index, row_name) =>
    cell_update shp row_index 0 (set_text row_name)).

(** Lines 165-166: [for col_index, col_name in enumerate(colnames)]. *)
Definition insert_column_names (shp : nat) (colnames : list string) : M unit :=
  for_each (enumerate colnames) (fun '(col_index, col_name) =>
    cell_update shp 0 col_index (set_text col_name)).

(** Lines 118-125: the values, one column to the right of the row names. *)
Definition insert_values_transposed (host : Host)
  (col_formatters : option (list string)) (shp rows cols : nat)
  (m : list (list pyvalue)) : M unit :=
  for_range rows (fun row =>
    for_range cols (fun col =>
      val ← lift (matrix_index m row col);
      text ← lift (cell_string host col_formatters val col);
      cell_update shp row (col + 1) (set_text text))).

(** Lines 170-179: the values, one row below the column names. *)
Definition insert_values (host : Host)
  (col_formatters : option (list string)) (shp rows cols : nat)
  (m : list (list pyvalue)) : M unit :=
  for_range rows (fun row =>
    for_range cols (fun col =>
      val ← lift (matrix_index m row col);
      text ← lift (cell_string host col_formatters val col);
      cell_update shp (row + 1) col (set_text text))).

(** Lines 134-140 and 187-193: the text format of the cell [(i, j)]. *)
Definition format_cell_text (shp : nat) (font_size : Z) (i j : nat) : M unit :=
  cell_update shp i j (set_auto_size SHAPE_TO_FIT_TEXT);;
  cell_update shp i j (set_font_bold false);;
  cell_update shp i j (set_font_size (Pt font_size));;
  cell_update shp i j (set_font_name "Calibri");;
  cell_update shp i j (set_font_color (RGB 0 0 0));;
  cell_update shp i j (set_alignment ALIGN_CENTER).

(** Lines 132-155: the cell formats of a transposed table. *)
Definition format_transposed (shp rows cols : nat) (font_size : Z) : M unit :=
  for_range rows (fun i =>
    for_range (cols + 1) (fun j => format_cell_text shp font_size i j));;
  for_range rows (fun i =>
    cell_update shp i 0 fill_solid;;
    cell_update shp i 0 (set_fore_color (RGB 79 129 189));;
    cell_update shp i 0 (set_font_bold true);;
    cell_update shp i 0 (set_font_size (Pt font_size));;
    cell_update shp i 0 (set_font_name "Calibri");;
    cell_update shp i 0 (set_font_color (RGB 0 0 0));;
    cell_update shp i 0 (set_alignment ALIGN_LEFT));;
  for_range cols (fun j =>
    cell_update shp 0 (j + 1) fill_solid;;
    cell_update shp 0 (j + 1) (set_fore_color (RGB 233 237 244))).

(** Lines 185-202: the cell formats of a table in the default orientation. *)
Definition format_vertical (shp rows cols : nat) (font_size : Z) : M unit :=
  for_range (rows + 1) (fun i =>
    for_range cols (fun j => format_cell_text shp font_size i j));;
  for_range cols (fun j =>
    cell_update shp 0 j (set_font_bold true);;
    cell_update shp 0 j (set_font_size (Pt font_size));;
    cell_update shp 0 j (set_font_name "Calibri");;
    cell_update shp 0 j (set_font_color (RGB 0 0 0));;
    cell_update shp 0 j (set_alignment ALIGN_CENTER)).

(** Lines 205-206. *)
Definition assign_column_widths (shp : nat) (col_width : list Z) : M unit :=
  for_range (length col_width) (fun i =>
    w ← lift (list_index col_width i);
    column_update shp i (set_column_width w)).

(** Lines 209-210. *)
Definition assign_column_heights (shp : nat) (col_height : list Z) : M unit :=
  for_range (length col_height) (fun i =>
    h ← lift (list_index col_height i);
    column_update shp i (set_column_height h)).

(** Lines 109-155: the transposed table, once the frame is added. *)
Definition fill_transposed (host : Host) (kw : Kwargs) (shp rows cols : nat)
  : M nat :=
  rownames ← match kw_rownames kw with
             | None => df_index_list
             | Some l => mret l
             end;
  insert_row_names shp rownames;;
  m ← df_as_matrix;
  insert_values_transposed host (kw_col_formatters kw) shp rows cols m;;
  match kw_name kw with
  | Some name => set_name shp name
  | None => mret tt
  end;;
  (if negb (kw_white_backgr kw)
   then format_transposed shp rows cols (kw_font_size kw)
   else mret tt);;
  mret shp.

(** Lines 161-202: the table in the default orientation, once the frame is
    added. *)
Definition fill_vertical (host : Host) (kw : Kwargs) (shp rows cols : nat)
  : M nat :=
  colnames ← match kw_colnames kw with
             | None => df_columns_list
             | Some l => mret l
             end;
  insert_column_names shp colnames;;
  m ← df_as_matrix;
  insert_values host (kw_col_formatters kw) shp rows cols m;;
  match kw_name kw with
  | Some name => set_name shp name
  | None => mret tt
  end;;
  (if negb (kw_white_backgr kw)
   then format_vertical shp rows cols (kw_font_size kw)
   else mret tt);;
  mret shp.

(** Lines 204-212: the widths and heights, and the handle returned. *)
Definition assign_columns (kw : Kwargs) (shp : nat) : M nat :=
  (if kw_set_col_width kw
   then assign_column_widths shp (kw_col_width kw)
   else mret tt);;
  (if kw_set_col_height kw
   then assign_column_heights shp (kw_col_height kw)
   else mret tt);;
  mret shp.

Definition df_to_table (host : Host) (kw : Kwargs) : M nat :=
  let left := process_position_parameter (kw_left kw) in
  let top := process_position_parameter (kw_top kw) in
  let width := process_position_parameter (kw_width kw) in
  let height := process_position_parameter (kw_height kw) in
  '(rows, cols) ← df_shape;
  shp ←
    (if kw_transposed kw then
       shp ← add_table rows (cols + 1) left top width height;
       fill_transposed host kw shp rows cols
     else
       shp ← add_table (rows + 1) cols left top width height;
       fill_vertical host kw shp rows cols);
  assign_columns kw shp.

(** ** What a call is expected to leave on the slide *)

(** The grid of the table: one more column (transposed) or one more row
    than the DataFrame. *)
Definition table_rows (kw : Kwargs) (df : DataFrame) : nat :=
  if kw_transposed kw then length (df_index df) else length (df_index df) + 1.
Definition table_cols (kw : Kwargs) (df : DataFrame) : nat :=
  if kw_transposed kw then length (df_columns df) + 1 else length (df_columns df).

(** The labels written: the row names of a transposed table, the column
    names otherwise; those of the DataFrame when none is supplied. *)
Definition labels (kw : Kwargs) (df : DataFrame) : list string :=
  if kw_transposed kw
  then match kw_rownames kw with None => df_index df | Some l => l end
  else match kw_colnames kw with None => df_columns df | Some l => l end.

(** The text computed for the value at [(row, col)] of the matrix. *)
Definition matrix_text (host : Host) (col_formatters : option (list string))
  (m : list (list pyvalue)) (row col : nat) : res string :=
  val ← matrix_index m row col;
  cell_string host col_formatters val col.

Definition data_text (host : Host) (kw : Kwargs) (df : DataFrame)
  (row col : nat) : res string :=
  matrix_text host (kw_col_formatters kw) (df_values df) row col.

Definition text_of (r : res string) : string :=
  match r with Ok s => s | Raise _ => "" end.

Definition label_at (names : list string) (k : nat) : string :=
  default "" (names !! k).

(** The text of the cell [(i, j)] of the table. *)
Definition expected_text (host : Host) (kw : Kwargs) (df : DataFrame)
  (i j : nat) : string :=
  if kw_transposed kw then
    match j with
    | O => label_at (labels kw df) i
    | S col => text_of (data_text host kw df i col)
    end
  else
    match i with
    | O => label_at (labels kw df) j
    | S row => text_of (data_text host kw df row j)
    end.

(** The column [i] of the table. *)
Definition expected_column (kw : Kwargs) (width : Z) (cols i : nat) : Column :=
  {| column_width :=
       if kw_set_col_width kw
       then default (initial_column_width width cols i) (kw_col_width kw !! i)
       else initial_column_width width cols i;
     column_height :=
       if kw_set_col_height kw then kw_col_height kw !! i else None |}.

Definition expected_name (kw : Kwargs) (shapes : list Shape) : string :=
  match kw_name kw with
  | Some name => name
  | None => "Table " ++ digits_of_nat (N.of_nat (S (length shapes)))
  end.

Definition emu_default (p : position) : Z :=
  match emu_of (process_position_parameter p) with Ok z => z | Raise _ => 0 end.

(** The calls that run to their end: the position arguments are lengths,
    the grid has a row and a column, the labels fit in the grid, every
    value is found and formatted, and the width and height lists are not
    longer than the table has columns. *)
Definition call_ok (host : Host) (kw : Kwargs) (df : DataFrame) : bool :=
  is_ok (emu_of (process_position_parameter (kw_left kw))) &&
  is_ok (emu_of (process_position_parameter (kw_top kw))) &&
  is_ok (emu_of (process_position_parameter (kw_width kw))) &&
  is_ok (emu_of (process_position_parameter (kw_height kw))) &&
  negb (Nat.eqb (table_rows kw df) 0) &&
  negb (Nat.eqb (table_cols kw df) 0) &&
  Nat.leb (length (labels kw df))
          (if kw_transposed kw then table_rows kw df else table_cols kw df) &&
  forallb (fun row =>
     forallb (fun col => is_ok (data_text host kw df row col))
             (seq 0 (length (df_columns df))))
    (seq 0 (length (df_index df))) &&
  (negb (kw_set_col_width kw) ||
   Nat.leb (length (kw_col_width kw)) (table_cols kw df)) &&
  (negb (kw_set_col_height kw) ||
   Nat.leb (length (kw_col_height kw)) (table_cols kw df)).

(** ** Reading the result of a call *)

(** The text of the cell [(i, j)] of a frame. *)
Definition cell_text_at (g : GraphicFrame) (i j : nat) : option string :=
  row ← cells (table g) !! i; c ← row !! j; Some (cell_text c).


(** The frame behind the handle a call returns. *)
Definition run_table (host : Host) (kw : Kwargs) (w : World)
  : option GraphicFrame :=
  match df_to_table host kw w with
  | (Ok shp, w') =>
      match w_slide w' !! shp with
      | Some (TableShape g) => Some g
      | _ => None
      end
  | (Raise _, _) => None
  end.


(** A host whose [format] rejects every specification left to it. *)
Definition strict_host : Host :=
  {| float_str := fun _ => "float"; format_spec := fun _ _ => Raise ValueError |}.

(** Sample inputs. *)
Definition sample_df : DataFrame :=
  {| df_index := ["r0"; "r1"]; df_columns := ["a"; "b"];
     df_values := [[VInt 1000; VInt 2]; [VInt 3; VInt 4000000]] |}.

Definition sample_world : World :=
  {| w_df := sample_df; w_slide := [OtherShape "Title 1"] |}.



(** ** Assertions on the new graphic frame *)

Section Assertions.
(** The state of the world while the code works on the frame it added:
    the DataFrame and the earlier shapes of [w0], followed by the frame. *)
Variable w0 : World.

Definition world_with (g : GraphicFrame) : World :=
  {| w_df := w_df w0; w_slide := w_slide w0 ++ [TableShape g] |}.

(** Total correctness: from a frame that satisfies [P] the code returns,
    only the frame has changed, and the result and the frame satisfy [Q]. *)
Definition triple {A} (P : GraphicFrame -> Prop) (m : M A)
  (Q : A -> GraphicFrame -> Prop) : Prop :=
  forall g, P g ->
    exists a g', m (world_with g) = (Ok a, world_with g') /\ Q a g'.

Variables (geom : Z * Z * Z * Z) (R C : nat).

(** A frame of geometry [geom] with an [R] by [C] grid, whose cells
    satisfy [Pc] and whose columns satisfy [Pcol]. *)
Record frame_is (name : string) (Pc : nat -> nat -> Cell -> Prop)
  (Pcol : nat -> Column -> Prop) (g : GraphicFrame) : Prop := {
  fi_name : shape_name g = name;
  fi_geom : (shape_left g, shape_top g, shape_width g, shape_height g) = geom;
  fi_rows : length (cells (table g)) = R;
  fi_row_length : forall i row, cells (table g) !! i = Some row -> length row = C;
  fi_cell : forall i j row c,
    cells (table g) !! i = Some row -> row !! j = Some c -> Pc i j c;
  fi_ncolumns : length (columns (table g)) = C;
  fi_column : forall i c, columns (table g) !! i = Some c -> Pcol i c
}.
End Assertions.

(** The cell [(i, j)] shows the text [E i j]. *)
Definition shows (E : nat -> nat -> string) (i j : nat) (c : Cell) : Prop :=
  cell_text c = E i j.


(** The assignment [f] succeeds and leaves the text of the cell alone. *)
Definition keeps_text (f : Cell -> res Cell) : Prop :=
  forall c, exists c', f c = Ok c' /\ cell_text c' = cell_text c.

(** [w] has the DataFrame of [w0], and the shapes of [w0] are its first
    shapes. *)
Definition stable (w0 w : World) : Prop :=
  w_df w = w_df w0 /\ take (length (w_slide w0)) (w_slide w) = w_slide w0.

(** The computation keeps the world stable, also when it raises, and a
    result it returns satisfies [Q]. *)
Definition preserves (w0 : World) {A} (m : M A) (Q : A -> Prop) : Prop :=
  forall w, stable w0 w ->
    stable w0 (snd (m w)) /\ forall a, fst (m w) = Ok a -> Q a.

Definition anything {A} (a : A) : Prop := True.

(** ** When the rounding branch of [_do_formatting] fails *)

(** [format_str[0] == '.'] for a non-empty string. *)
Definition starts_with_dot (s : string) : bool :=
  match s with
  | String c _ => Ascii.eqb c "."%char
  | EmptyString => false
  end.

(** The character after the first is a decimal digit. *)
Definition second_is_digit (s : string) : bool :=
  match String.get 1 s with
  | Some c => is_ok (int_of_char c)
  | None => false
  end.

Definition is_zero_int (v : pyvalue) : bool :=
  match v with VInt z => z =? 0 | _ => false end.

(** The rounding branch is entered (an integer, a specification from a dot
    to an ['R']) and cannot round: no digit after the dot, or the value
    zero. *)
Definition rounding_fails (v : pyvalue) (format_str : string) : bool :=
  is_integer v && starts_with_dot format_str && endswith format_str "R"%char &&
  (negb (second_is_digit format_str) || is_zero_int v).


(** ** The cells a call leaves *)

(** A cell with a text and nothing else assigned. *)
Definition text_cell (t : string) : Cell :=
  {| cell_text := t; cell_auto_size := None; cell_fill := NoFill;
     cell_para := {| para_font := empty_font; para_alignment := None |} |}.

(** Nothing but the text of the cell has been assigned. *)
Definition unstyled (c : Cell) : Prop := c = text_cell (cell_text c).

(** A cell after the formatting statements of lines 134-151 or 187-202:
    its text fits the shape, in black Calibri of the given size. *)
Definition formatted_cell (font_size : Z) (bold : bool) (align : PP_ALIGN)
  (fill : Fill) (t : string) : Cell :=
  {| cell_text := t; cell_auto_size := Some SHAPE_TO_FIT_TEXT;
     cell_fill := fill;
     cell_para :=
       {| para_font := {| font_bold := Some bold;
                          font_size := Some (Pt font_size);
                          font_name := Some "Calibri";
                          font_color := Some (RGB 0 0 0) |};
          para_alignment := Some align |} |}.

(** The cell [(i, j)] of a table in the default orientation: the first row
    is bold. *)
Definition vertical_cell (font_size : Z) (i : nat) (t : string) : Cell :=
  formatted_cell font_size (match i with O => true | S _ => false end)
    ALIGN_CENTER NoFill t.

(** The cell [(i, j)] of a transposed table: the first column is bold, left
    aligned and filled in blue; the rest of the first row is filled in
    grey. *)
Definition transposed_cell (font_size : Z) (i j : nat) (t : string) : Cell :=
  match j with
  | O => formatted_cell font_size true ALIGN_LEFT
           (Solid (Some (RGB 79 129 189))) t
  | S _ => formatted_cell font_size false ALIGN_CENTER
             (match i with
              | O => Solid (Some (RGB 233 237 244))
              | S _ => NoFill
              end) t
  end.

(** The cell [(i, j)] of the table a call leaves. *)
Definition expected_cell (host : Host) (kw : Kwargs) (df : DataFrame)
  (i j : nat) : Cell :=
  let t := expected_text host kw df i j in
  if kw_white_backgr kw then text_cell t
  else if kw_transposed kw then transposed_cell (kw_font_size kw) i j t
  else vertical_cell (kw_font_size kw) i t.

(** The cell [(i, j)] is the cell [B i j]. *)
Definition exactly (B : nat -> nat -> Cell) (i j : nat) (c : Cell) : Prop :=
  c = B i j.

(** [B] with the cell [(i, j)] replaced by [c]. *)
Definition with_cell (B : nat -> nat -> Cell) (i j : nat) (c : Cell)
  (i' j' : nat) : Cell :=
  if decide (i' = i /\ j' = j) then c else B i' j'.

(** The cell [(i, j)] of a frame. *)
Definition cell_at (g : GraphicFrame) (i j : nat) : option Cell :=
  row ← cells (table g) !! i; row !! j.

(** The calls that reach the assignment of the widths (lines 204-210):
    [call_ok] without its conditions on the width and height lists. *)
Definition fill_ok (host : Host) (kw : Kwargs) (df : DataFrame) : bool :=
  is_ok (emu_of (process_position_parameter (kw_left kw))) &&
  is_ok (emu_of (process_position_parameter (kw_top kw))) &&
  is_ok (emu_of (process_position_parameter (kw_width kw))) &&
  is_ok (emu_of (process_position_parameter (kw_height kw))) &&
  negb (Nat.eqb (table_rows kw df) 0) &&
  negb (Nat.eqb (table_cols kw df) 0) &&
  Nat.leb (length (labels kw df))
          (if kw_transposed kw then table_rows kw df else table_cols kw df) &&
  forallb (fun row =>
     forallb (fun col => is_ok (data_text host kw df row col))
             (seq 0 (length (df_columns df))))
    (seq 0 (length (df_index df))).

(** The values of the DataFrame are a matrix of its shape. *)
Definition well_formed (df : DataFrame) : bool :=
  Nat.eqb (length (df_values df)) (length (df_index df)) &&
  forallb (fun row : list pyvalue =>
             Nat.eqb (length row) (length (df_columns df)))
          (df_values df).


Definition plain_kwargs : Kwargs :=
  {| kw_left := PNone; kw_top := PNone; kw_width := PNone; kw_height := PNone;
     kw_colnames := None; kw_rownames := None; kw_col_formatters := None;
     kw_rounding := None; kw_name := None; kw_white_backgr := true;
     kw_transposed := false; kw_font_size := 14; kw_set_col_width := false;
     kw_col_width := []; kw_set_col_height := false; kw_col_height := [] |}.


(** ** Calls that raise *)

(** From a frame that satisfies [P] the code raises [e]; only the frame has
    changed, and it satisfies [S]. *)
Definition fails (w0 : World) {A} (P : GraphicFrame -> Prop) (m : M A)
  (e : exn) (S : GraphicFrame -> Prop) : Prop :=
  forall g, P g ->
    exists g', m (world_with w0 g) = (Raise e, world_with w0 g') /\ S g'.

(** The position arguments are lengths and the grid has a row and a
    column: [add_table] returns. *)
Definition frame_ok (kw : Kwargs) (df : DataFrame) : bool :=
  is_ok (emu_of (process_position_parameter (kw_left kw))) &&
  is_ok (emu_of (process_position_parameter (kw_top kw))) &&
  is_ok (emu_of (process_position_parameter (kw_width kw))) &&
  is_ok (emu_of (process_position_parameter (kw_height kw))) &&
  negb (Nat.eqb (table_rows kw df) 0) &&
  negb (Nat.eqb (table_cols kw df) 0).

(** The number of label cells: the columns of the first row, or the rows
    of the first column of a transposed table. *)
Definition label_count (kw : Kwargs) (df : DataFrame) : nat :=
  if kw_transposed kw then length (df_index df) else length (df_columns df).

(** The texts of the grid when the labels are written, and the first [n]
    values of the first row of the DataFrame. *)
Definition texts_until (host : Host) (kw : Kwargs) (df : DataFrame)
  (n i j : nat) : string :=
  if kw_transposed kw then
    match j with
    | O => label_at (labels kw df) i
    | S col =>
        if decide (i = 0 /\ col < n)%nat
        then text_of (data_text host kw df 0 col) else ""
    end
  else
    match i with
    | O => label_at (labels kw df) j
    | S row =>
        if decide (row = 0 /\ j < n)%nat
        then text_of (data_text host kw df 0 j) else ""
    end.

(** The frame a call has added, before its name is assigned: its cells show
    the texts [E]. *)
Definition fresh_frame (kw : Kwargs) (w : World) (E : nat -> nat -> string)
  : GraphicFrame -> Prop :=
  frame_is
    (emu_default (kw_left kw), emu_default (kw_top kw),
     emu_default (kw_width kw), emu_default (kw_height kw))
    (table_rows kw (w_df w)) (table_cols kw (w_df w))
    ("Table " ++ digits_of_nat (N.of_nat (S (length (w_slide w)))))
    (shows E) (fun _ _ => True).

Definition short_formatters_kwargs : Kwargs :=
  {| kw_left := PNone; kw_top := PNone; kw_width := PNone; kw_height := PNone;
     kw_colnames := None; kw_rownames := None; kw_col_formatters := Some [","];
     kw_rounding := None; kw_name := None; kw_white_backgr := false;
     kw_transposed := false; kw_font_size := 14; kw_set_col_width := false;
     kw_col_width := []; kw_set_col_height := false; kw_col_height := [] |}.

Definition long_names_kwargs : Kwargs :=
  {| kw_left := PNone; kw_top := PNone; kw_width := PNone; kw_height := PNone;
     kw_colnames := Some ["x"; "y"; "z"]; kw_rownames := None;
     kw_col_formatters := None;
     kw_rounding := None; kw_name := None; kw_white_backgr := false;
     kw_transposed := false; kw_font_size := 14; kw_set_col_width := false;
     kw_col_width := []; kw_set_col_height := false; kw_col_height := [] |}.


(** * Properties of the formatter *)

Example format_thousands_examples :
  format_thousands 1234567 = "1,234,567" /\
  format_thousands (-1000) = "-1,000" /\
  format_thousands 0 = "0" /\
  format_thousands 999 = "999" /\
  format_thousands 100000 = "100,000" /\
  str_of_int (-12) = "-12" /\ str_of_int 0 = "0".
Proof. repeat split; reflexivity. Qed.

Lemma filter_group_rev k ds :
  List.forallb (fun c => negb (Ascii.eqb c ","%char)) ds = true ->
  List.filter (fun c => negb (Ascii.eqb c ","%char)) (group_rev k ds) = ds.
Proof.
  revert k. induction ds as [|d rest IH]; intros k Hds; [done|].
  cbn [List.forallb] in Hds. apply andb_true_iff in Hds as [Hd Hrest].
  cbn [group_rev]. destruct k as [|k].
  - destruct rest as [|d' rest']; cbn [List.filter]; rewrite Hd; [done|].
    change (negb (Ascii.eqb "," ",")) with false. cbv iota.
    f_equal. by apply IH.
  - cbn [List.filter]. rewrite Hd. f_equal. by apply IH.
Qed.

Lemma forallb_rev {A} (f : A -> bool) (l : list A) :
  List.forallb f (rev l) = List.forallb f l.
Proof.
  induction l as [|x l IH]; [done|]. cbn [rev List.forallb].
  rewrite List.forallb_app, IH. cbn [List.forallb].
  by rewrite andb_true_r, andb_comm.
Qed.

Lemma digits_have_no_comma d :
  List.forallb (fun c => negb (Ascii.eqb c ","%char))
    (list_ascii_of_string (DecimalString.NilEmpty.string_of_uint d)) = true.
Proof. induction d; cbn; done. Qed.

(** [format(n, ',')] is [str(n)] with commas put in. *)
Lemma format_thousands_strip z : strip_commas (format_thousands z) = str_of_int z.
Proof.
  assert (Hbody : forall d,
    strip_commas (string_of_list_ascii (rev (group_rev 2 (rev
      (list_ascii_of_string (DecimalString.NilZero.string_of_uint d)))))) =
    DecimalString.NilZero.string_of_uint d).
  { intros d. unfold strip_commas. rewrite list_ascii_of_string_of_list_ascii.
    rewrite List.filter_rev, filter_group_rev, rev_involutive.
    - apply string_of_list_ascii_of_string.
    - rewrite forallb_rev. unfold DecimalString.NilZero.string_of_uint.
      destruct d; try apply digits_have_no_comma. reflexivity. }
  unfold format_thousands, str_of_int, digits_of_nat.
  destruct z as [|p|p]; cbn [Z.ltb Z.compare Z.abs_N Z.to_int N.to_uint].
  - reflexivity.
  - apply Hbody.
  - unfold DecimalString.NilZero.string_of_int.
    specialize (Hbody (Pos.to_uint p)). unfold strip_commas in *.
    cbn [list_ascii_of_string List.filter].
    change (negb (Ascii.eqb "-" ",")) with true. cbv iota.
    cbn [string_of_list_ascii]. f_equal. exact Hbody.
Qed.

Lemma py_format_plain host v : py_format host v "" = Ok (py_str host v).
Proof. reflexivity. Qed.

Lemma format_or_plain_returns host v fs : exists s, format_or_plain host v fs = Ok s.
Proof.
  unfold format_or_plain.
  destruct (py_format host v fs) as [s|e]; [by exists s|].
  rewrite py_format_plain. by eexists.
Qed.

(** Once the specification is selected, the [try] block cannot fail. *)
Lemma do_formatting_returns host v fs p :
  select_format v fs = Ok p -> exists s, _do_formatting host v fs = Ok s.
Proof.
  intros Hsel. unfold _do_formatting. rewrite Hsel. destruct p as [v' fs'].
  apply format_or_plain_returns.
Qed.

(** Outside the rounding branch the selection itself cannot fail. *)
Lemma select_format_returns v fs :
  is_integer v && endswith fs "R"%char = false ->
  exists p, select_format v fs = Ok p.
Proof.
  intros Hb. unfold select_format.
  destruct (String.eqb fs "") eqn:He; [by eexists|].
  destruct fs as [|c0 rest]; [discriminate|].
  cbn [str_index String.get]. cbn [mbind res_mbind res_bind].
  destruct (Ascii.eqb c0 "."%char); [|by eexists].
  destruct (endswith (String c0 rest) "R"%char) eqn:HR.
  - rewrite andb_true_r in Hb. rewrite Hb. cbn.
    destruct (negb _); by eexists.
  - cbn. destruct (negb _); by eexists.
Qed.

(** C5: with an empty format specification the default is chosen by the
    type of the value: [','] (thousands separators) for an integer, ['f']
    (fixed point) for a float, ['s'] for a string, which is returned as it
    is; for a value of another type the specification stays empty. The
    thousands-separated string of an integer is its decimal string with
    commas put in. *)
Theorem do_formatting_empty_spec (host : Host) (v : pyvalue) :
  select_format v "" =
    Ok (v, match v with
           | VInt _ => ","
           | VFloat _ => "f"
           | VStr _ => "s"
           | VObject _ => ""
           end) /\
  _do_formatting host v "" =
    match v with
    | VInt z => Ok (format_thousands z)
    | VFloat x =>
        match format_spec host (VFloat x) "f" with
        | Ok s => Ok s
        | Raise _ => Ok (float_str host x)
        end
    | VStr s => Ok s
    | VObject repr => Ok repr
    end /\
  (forall z, strip_commas (format_thousands z) = str_of_int z).
Proof.
  split; [reflexivity|]. split; [|apply format_thousands_strip].
  destruct v as [z|x|s|repr]; reflexivity.
Qed.

(** C1: the rounding step runs before the [try] block, and its exceptions
    reach the caller: [int('R')] for the specification ['.R'], and
    [log10(0)] for the value [0]. *)
Theorem do_formatting_raises (host : Host) :
  _do_formatting host (VInt 5) ".R" = Raise ValueError /\
  _do_formatting host (VInt 0) ".2R" = Raise ValueError.
Proof. split; reflexivity. Qed.

Lemma endswith_app_char s c : endswith (s ++ String c "") c = true.
Proof.
  induction s as [|a s IH]; cbn.
  - apply Ascii.eqb_refl.
  - destruct (s ++ String c "") eqn:E; [by destruct s|]. exact IH.
Qed.

Lemma endswith_cons a s c : s <> "" -> endswith (String a s) c = endswith s c.
Proof. destruct s; [done|reflexivity]. Qed.

(** The rounding branch: for a non-zero integer and a digit after the dot,
    the value is rounded and the specification that reaches [format] is
    [',G']. *)
Lemma select_format_rounding z d n rest :
  z <> 0 -> int_of_char d = Ok n ->
  select_format (VInt z) (String "." (String d (rest ++ "R"))) =
    Ok (VInt (round_int z (- ilog10 (Z.abs z) + (n - 1))), ",G").
Proof.
  intros Hz Hd. unfold select_format.
  cbn [String.eqb str_index String.get mbind res_mbind res_bind].
  change (Ascii.eqb "." ".") with true. cbv iota.
  assert (HR : endswith (String "." (String d (rest ++ "R"))) "R"%char = true).
  { rewrite endswith_cons by done.
    change (String d (rest ++ "R")) with (String d rest ++ "R").
    apply endswith_app_char. }
  rewrite HR. cbn [is_integer]. rewrite Hd.
  unfold round_to_n. cbn [py_abs mbind res_mbind res_bind floor_log10].
  destruct (0 <? Z.abs z) eqn:Hpos; [|lia].
  reflexivity.
Qed.

(** A specification that begins with a dot always reaches [format] with a
    final ['G'], also after the rounding branch. *)
Lemma select_format_dot_ends_with_G v rest v' fs' :
  select_format v (String "." rest) = Ok (v', fs') ->
  endswith fs' "G"%char = true.
Proof.
  unfold select_format.
  cbn [String.eqb str_index String.get mbind res_mbind res_bind].
  change (Ascii.eqb "." ".") with true. cbv iota.
  set (fs := String "." rest).
  assert (Hfin : forall p : pyvalue * string,
    (let '(value, format_str) := p in
     if negb (endswith format_str "G"%char)
     then Ok (value, format_str ++ "G") else Ok (value, format_str))
      = Ok (v', fs') -> endswith fs' "G"%char = true).
  { intros [a b]. destruct (endswith b "G"%char) eqn:E; cbn; intros [= <- <-].
    - exact E.
    - apply endswith_app_char. }
  destruct (endswith fs "R"%char); [destruct (is_integer v)|];
    try exact (Hfin (v, fs)).
  unfold mbind, res_mbind, res_bind.
  destruct (str_index fs 1) as [c1|]; [|discriminate].
  destruct (int_of_char c1) as [n|]; [|discriminate].
  destruct (round_to_n v n) as [r|]; [|discriminate].
  intros [= <- <-]. reflexivity.
Qed.

(** C3: for the integer [1234567] and the specification ['.2R'] the value
    is rounded to two significant digits, and the specification that
    reaches [format] is [',G'], not [',']: the ['R'] is consumed, and a
    ['G'] is appended to the [','] the rounding branch selected. *)
Theorem rounding_branch_final_format (host : Host) :
  select_format (VInt 1234567) ".2R" = Ok (VInt 1200000, ",G") /\
  _do_formatting host (VInt 1234567) ".2R" =
    format_or_plain host (VInt 1200000) ",G" /\
  py_format host (VInt 1200000) "," = Ok "1,200,000".
Proof. repeat split; reflexivity. Qed.

(** C4: the ['G'] marker is appended although the rounding branch was
    taken: for an integer and ['.3R'] the branch selects [','] and the
    test on the final ['G'] that follows turns it into [',G']. *)
Theorem general_marker_after_rounding_branch :
  select_format (VInt 1234) ".3R" = Ok (VInt 1230, ",G") /\
  select_format (VFloat (5 # 2)) ".3" = Ok (VFloat (5 # 2), ".3G") /\
  select_format (VFloat (5 # 2)) ".3G" = Ok (VFloat (5 # 2), ".3G").
Proof. repeat split; reflexivity. Qed.

(** * Properties of the rounding *)




(** On a tie [div_half_even] returns the even neighbour. *)
Lemma div_half_even_tie a b :
  0 < b -> 2 * (a mod b) = b -> Z.even (div_half_even a b) = true.
Proof.
  intros Hb Htie. unfold div_half_even.
  destruct (Z.ltb_spec (2 * (a mod b)) b); [lia|].
  destruct (Z.ltb_spec b (2 * (a mod b))); [lia|].
  destruct (Z.even (a / b)) eqn:E; [done|].
  rewrite Z.even_add, E. reflexivity.
Qed.



(** ** The same on floats, as exact rationals *)








(** Zero has no order of magnitude: [log10(0)] raises. *)
Lemma round_to_n_zero n : round_to_n (VInt 0) n = Raise ValueError.
Proof. reflexivity. Qed.


(** * The DataFrame and the earlier shapes are left alone *)

Section Preservation.
Variable w0 : World.

Lemma preserves_ret {A} (a : A) (Q : A -> Prop) :
  Q a -> preserves w0 (mret a : M A) Q.
Proof. intros HQ w Hw. split; [done|]. by intros a' [= <-]. Qed.

Lemma preserves_read {A} (m : M A) :
  (forall w, snd (m w) = w) -> preserves w0 m anything.
Proof. intros Hm w Hw. by rewrite Hm. Qed.

Lemma preserves_bind {A B} (m : M A) (k : A -> M B) Q Q' :
  preserves w0 m Q -> (forall a, Q a -> preserves w0 (k a) Q') ->
  preserves w0 (m ≫= k) Q'.
Proof.
  intros Hm Hk w Hw. unfold mbind, M_bind.
  destruct (Hm w Hw) as [Hst Hres].
  destruct (m w) as [[a|e] w']; cbn in *; [|by split].
  apply (Hk a); auto.
Qed.

Lemma preserves_seq {A B} (m : M A) (k : A -> M B) Q' :
  preserves w0 m anything -> (forall a, preserves w0 (k a) Q') ->
  preserves w0 (m ≫= k) Q'.
Proof. intros Hm Hk. eapply preserves_bind; [exact Hm|by intros]. Qed.

Lemma preserves_any {A} (m : M A) Q :
  preserves w0 m Q -> preserves w0 m anything.
Proof. intros Hm w Hw. split; [by apply Hm|done]. Qed.

Lemma preserves_for_each {A} (l : list A) (body : A -> M unit) :
  (forall x, preserves w0 (body x) anything) ->
  preserves w0 (for_each l body) anything.
Proof.
  intros Hbody. induction l as [|x l IH]; cbn [for_each].
  - by apply preserves_ret.
  - apply preserves_seq; auto.
Qed.

Lemma preserves_for_range n (body : nat -> M unit) :
  (forall i, preserves w0 (body i) anything) ->
  preserves w0 (for_range n body) anything.
Proof. apply preserves_for_each. Qed.

Lemma preserves_if {A} (b : bool) (m1 m2 : M A) Q :
  preserves w0 m1 Q -> preserves w0 m2 Q ->
  preserves w0 (if b then m1 else m2) Q.
Proof. by destruct b. Qed.

(** An assignment through a handle at or after the end of the earlier
    shapes. *)
Lemma preserves_shape_update shp f :
  (length (w_slide w0) <= shp)%nat ->
  preserves w0 (shape_update shp f) anything.
Proof.
  intros Hshp w [Hdf Hsl]. split; [|done]. unfold shape_update.
  destruct (w_slide w !! shp) as [[g|name]|]; [|done..].
  destruct (f g) as [g'|e]; [|done]. split; [done|]. cbn.
  by rewrite take_insert_ge.
Qed.

(** [add_table] appends, and its handle is beyond the earlier shapes. *)
Lemma preserves_add_table rows cols l t wd h :
  preserves w0 (add_table rows cols l t wd h)
    (fun shp => (length (w_slide w0) <= shp)%nat).
Proof.
  intros w [Hdf Hsl]. unfold add_table.
  assert (Hlen : (length (w_slide w0) <= length (w_slide w))%nat).
  { rewrite <- Hsl at 1. rewrite length_take. lia. }
  destruct (_ ≫= _) as [g|e]; cbn.
  - split; [split; [done|]|by intros a [= <-]].
    cbn. by rewrite take_app_le.
  - by split.
Qed.
End Preservation.

Ltac preserves_tac :=
  repeat first
    [ apply preserves_seq; [|intros ?]
    | apply preserves_for_range; intros ?
    | apply preserves_for_each; intros ?
    | apply preserves_if
    | apply preserves_shape_update; assumption
    | apply preserves_ret; done
    | apply preserves_read; done
    | progress unfold cell_update, column_update, set_name
    | progress cbv beta
    | match goal with
      | |- preserves _ (match ?o with _ => _ end) _ => destruct o
      end ].

Lemma df_to_table_preserves (host : Host) (kw : Kwargs) (w0 : World) :
  preserves w0 (df_to_table host kw) anything.
Proof.
  unfold df_to_table, fill_transposed, fill_vertical, assign_columns,
    insert_row_names, insert_column_names,
    insert_values_transposed, insert_values, format_transposed,
    format_vertical, format_cell_text, assign_column_widths,
    assign_column_heights.
  eapply preserves_bind; [apply preserves_read; done|intros [rows cols] _].
  eapply (preserves_bind _ _ _ (fun shp => (length (w_slide w0) <= shp)%nat)).
  - apply preserves_if.
    + eapply preserves_bind; [apply preserves_add_table|intros shp Hshp].
      preserves_tac.
    + eapply preserves_bind; [apply preserves_add_table|intros shp Hshp].
      preserves_tac.
  - intros shp Hshp. preserves_tac.
Qed.

(** C9: a call never changes the DataFrame, whether it returns or raises:
    the DataFrame after the call is the one before it, and so are the
    shapes that were on the slide; what changes is the slide, by the shape
    the call adds. *)
Theorem df_to_table_keeps_df (host : Host) (kw : Kwargs) (w : World) :
  w_df (snd (df_to_table host kw w)) = w_df w /\
  exists added : list Shape,
    w_slide (snd (df_to_table host kw w)) = (w_slide w ++ added)%list.
Proof.
  destruct (df_to_table_preserves host kw w w) as [[Hdf Hsl] _].
  { split; [done|]. by rewrite firstn_all. }
  split; [exact Hdf|].
  exists (drop (length (w_slide w)) (w_slide (snd (df_to_table host kw w)))).
  rewrite <- Hsl at 1. by rewrite take_drop.
Qed.

(** * Running a sequence *)

Lemma run_bind_ok {A B} (m : M A) (k : A -> M B) w a w' :
  m w = (Ok a, w') -> (m ≫= k) w = k a w'.
Proof. intros H. unfold mbind, M_bind. by rewrite H. Qed.

Lemma run_bind_assoc {A B D} (m : M A) (k : A -> M B) (k' : B -> M D) w :
  ((m ≫= k) ≫= k') w = (m ≫= fun a => k a ≫= k') w.
Proof. unfold mbind, M_bind. by destruct (m w) as [[a|e] w']. Qed.



(** * The code that fills the new frame returns *)

Section Triples.
Variable w0 : World.
Local Abbreviation shp := (length (w_slide w0)).

Lemma triple_ret {A} (a : A) (P : GraphicFrame -> Prop) Q :
  (forall g, P g -> Q a g) -> triple w0 P (mret a) Q.
Proof. intros HPQ g Hg. exists a, g. split; [reflexivity|auto]. Qed.

Lemma triple_bind {A B} (m : M A) (k : A -> M B) P Q S :
  triple w0 P m Q -> (forall a, triple w0 (Q a) (k a) S) ->
  triple w0 P (m ≫= k) S.
Proof.
  intros Hm Hk g Hg. destruct (Hm g Hg) as (a & g1 & Hrun & Hq).
  destruct (Hk a g1 Hq) as (b & g2 & Hrun2 & Hs).
  exists b, g2. split; [|done]. unfold mbind, M_bind. by rewrite Hrun.
Qed.

Lemma triple_conseq {A} (m : M A) (P P' : GraphicFrame -> Prop) Q Q' :
  (forall g, P' g -> P g) -> (forall a g, Q a g -> Q' a g) ->
  triple w0 P m Q -> triple w0 P' m Q'.
Proof.
  intros HP HQ Hm g Hg. destruct (Hm g (HP g Hg)) as (a & g' & Hrun & Hq).
  exists a, g'. auto.
Qed.



Lemma triple_lift {A} (r : res A) (a : A) P S (k : A -> M unit) :
  r = Ok a -> triple w0 P (k a) S -> triple w0 P (lift r ≫= k) S.
Proof.
  intros -> Hk g Hg. destruct (Hk g Hg) as (b & g' & Hrun & Hs).
  exists b, g'. split; [|done]. exact Hrun.
Qed.

Lemma triple_if {A} (b : bool) (m1 m2 : M A) P Q :
  (b = true -> triple w0 P m1 Q) -> (b = false -> triple w0 P m2 Q) ->
  triple w0 P (if b then m1 else m2) Q.
Proof. destruct b; auto. Qed.

(** A loop with an invariant indexed by the number of iterations done. *)
Lemma triple_for_each {A} (l : list A) (body : A -> M unit)
  (I : nat -> GraphicFrame -> Prop) :
  (forall k x, l !! k = Some x -> triple w0 (I k) (body x) (fun _ => I (S k))) ->
  triple w0 (I 0%nat) (for_each l body) (fun _ => I (length l)).
Proof.
  revert I. induction l as [|x l IH]; intros I Hbody; cbn [for_each length].
  - by apply triple_ret.
  - eapply triple_bind; [apply (Hbody 0%nat x); reflexivity|intros ?].
    apply (IH (fun k => I (S k))). intros k y Hy. apply (Hbody (S k) y Hy).
Qed.

Lemma triple_for_range n (body : nat -> M unit)
  (I : nat -> GraphicFrame -> Prop) :
  (forall k, (k < n)%nat -> triple w0 (I k) (body k) (fun _ => I (S k))) ->
  triple w0 (I 0%nat) (for_range n body) (fun _ => I n).
Proof.
  intros Hbody. unfold for_range.
  eapply triple_conseq; [done| |apply (triple_for_each (seq 0 n) body I)].
  - intros ? g. by rewrite length_seq.
  - intros k x [-> Hk]%lookup_seq. by apply Hbody.
Qed.

(** A loop whose iterations all keep the assertion. *)
Lemma triple_for_range_same n (body : nat -> M unit) P :
  (forall k, (k < n)%nat -> triple w0 P (body k) (fun _ => P)) ->
  triple w0 P (for_range n body) (fun _ => P).
Proof. intros Hbody. by apply (triple_for_range n body (fun _ => P)). Qed.

(** An assignment through the handle of the new frame. *)
Lemma triple_shape_update f (P : GraphicFrame -> Prop) Q :
  (forall g, P g -> exists g', f g = Ok g' /\ Q tt g') ->
  triple w0 P (shape_update shp f) Q.
Proof.
  intros Hf g Hg. destruct (Hf g Hg) as (g' & Hfg & Hq).
  exists tt, g'. split; [|done].
  unfold shape_update, world_with. cbn [w_slide w_df].
  rewrite list_lookup_middle by done. rewrite Hfg. do 2 f_equal.
  rewrite insert_app_r_alt by done. by rewrite Nat.sub_diag.
Qed.

Variables (geom : Z * Z * Z * Z) (R C : nat).

Lemma frame_is_mono name (Pc Pc' : nat -> nat -> Cell -> Prop)
  (Pcol Pcol' : nat -> Column -> Prop) g :
  (forall i j c, (i < R)%nat -> (j < C)%nat -> Pc i j c -> Pc' i j c) ->
  (forall i c, (i < C)%nat -> Pcol i c -> Pcol' i c) ->
  frame_is geom R C name Pc Pcol g -> frame_is geom R C name Pc' Pcol' g.
Proof.
  intros Hc Hcol [Hn Hg Hr Hl Hcell Hnc Hcl].
  split; try done.
  - intros i j row c Hrow Hc'. apply Hc; [| |by eapply Hcell].
    + rewrite <- Hr. by eapply lookup_lt_Some.
    + rewrite <- (Hl i row Hrow). by eapply lookup_lt_Some.
  - intros i c Hi. apply Hcol; [|by apply Hcl].
    rewrite <- Hnc. by eapply lookup_lt_Some.
Qed.

(** An assignment to the cell [(i, j)] of the grid. *)
Lemma assign_cell_spec name (Pc Pc' : nat -> nat -> Cell -> Prop) Pcol i j f g :
  (i < R)%nat -> (j < C)%nat ->
  (forall c, Pc i j c -> exists c', f c = Ok c' /\ Pc' i j c') ->
  (forall i' j' c, (i' <> i \/ j' <> j) -> Pc i' j' c -> Pc' i' j' c) ->
  frame_is geom R C name Pc Pcol g ->
  exists g', assign_cell i j f g = Ok g' /\ frame_is geom R C name Pc' Pcol g'.
Proof.
  intros Hi Hj Hf Hother [Hn Hg Hr Hl Hcell Hnc Hcl].
  destruct (lookup_lt_is_Some_2 (cells (table g)) i) as [row Hrow]; [lia|].
  destruct (lookup_lt_is_Some_2 row j) as [c Hc].
  { rewrite (Hl i row Hrow). lia. }
  destruct (Hf c (Hcell i j row c Hrow Hc)) as (c' & Hfc & Hc').
  eexists. split.
  { unfold assign_cell, list_index. rewrite Hrow. cbn. rewrite Hc. cbn.
    rewrite Hfc. reflexivity. }
  split; cbn; try done.
  - by rewrite length_insert.
  - intros i' row'. destruct (decide (i' = i)) as [->|Hne].
    + rewrite list_lookup_insert_eq by lia. intros [= <-].
      rewrite length_insert. by eapply Hl.
    + rewrite list_lookup_insert_ne by done. apply Hl.
  - intros i' j' row' c0. destruct (decide (i' = i)) as [->|Hne].
    + rewrite list_lookup_insert_eq by lia. intros [= <-].
      destruct (decide (j' = j)) as [->|Hnej].
      * rewrite list_lookup_insert_eq; [by intros [= <-]|].
        rewrite (Hl i row Hrow). lia.
      * rewrite list_lookup_insert_ne by done. intros Hc0.
        apply Hother; [by right|by eapply Hcell].
    + rewrite list_lookup_insert_ne by done. intros Hrow' Hc0.
      apply Hother; [by left|by eapply Hcell].
Qed.

Lemma triple_cell_update name (Pc Pc' : nat -> nat -> Cell -> Prop) Pcol i j f :
  (i < R)%nat -> (j < C)%nat ->
  (forall c, Pc i j c -> exists c', f c = Ok c' /\ Pc' i j c') ->
  (forall i' j' c, (i' <> i \/ j' <> j) -> Pc i' j' c -> Pc' i' j' c) ->
  triple w0 (frame_is geom R C name Pc Pcol) (cell_update shp i j f)
    (fun _ => frame_is geom R C name Pc' Pcol).
Proof.
  intros Hi Hj Hf Hother. apply triple_shape_update. intros g Hg.
  by eapply assign_cell_spec.
Qed.




(** [cell.text = s] *)
Lemma triple_set_text name E E' Pcol i j s :
  (i < R)%nat -> (j < C)%nat ->
  E' i j = s ->
  (forall i' j', (i' <> i \/ j' <> j) -> E' i' j' = E i' j') ->
  triple w0 (frame_is geom R C name (shows E) Pcol)
    (cell_update shp i j (set_text s))
    (fun _ => frame_is geom R C name (shows E') Pcol).
Proof.
  intros Hi Hj Hs Hother. apply triple_cell_update; [done..| |].
  - intros c _. eexists. split; [reflexivity|]. by unfold shows.
  - intros i' j' c Hne Hc. unfold shows in *. by rewrite Hother.
Qed.

(** An assignment to the column [i]. *)
Lemma triple_column_update name Pc (Pcol Pcol' : nat -> Column -> Prop) i f :
  (i < C)%nat ->
  (forall c, Pcol i c -> Pcol' i (f c)) ->
  (forall i' c, i' <> i -> Pcol i' c -> Pcol' i' c) ->
  triple w0 (frame_is geom R C name Pc Pcol) (column_update shp i f)
    (fun _ => frame_is geom R C name Pc Pcol').
Proof.
  intros Hi Hf Hother. apply triple_shape_update.
  intros g [Hn Hg Hr Hl Hcell Hnc Hcl].
  destruct (lookup_lt_is_Some_2 (columns (table g)) i) as [c Hc]; [lia|].
  eexists. split.
  { unfold assign_column, list_index. rewrite Hc. reflexivity. }
  split; cbn; try done.
  - by rewrite length_insert.
  - intros i' c'. destruct (decide (i' = i)) as [->|Hne].
    + rewrite list_lookup_insert_eq by lia. intros [= <-]. auto.
    + rewrite list_lookup_insert_ne by done. intros Hc'. auto.
Qed.

(** [shp.name = name] *)
Lemma triple_set_name name name' Pc Pcol :
  triple w0 (frame_is geom R C name Pc Pcol) (set_name shp name')
    (fun _ => frame_is geom R C name' Pc Pcol).
Proof.
  apply triple_shape_update. intros g [Hn Hg Hr Hl Hcell Hnc Hcl].
  eexists. split; [reflexivity|]. by split.
Qed.
End Triples.

(** * The blocks of [df_to_table] *)

Lemma lookup_enumerate {A} (l : list A) k i x :
  enumerate l !! k = Some (i, x) <-> i = k /\ l !! k = Some x.
Proof.
  unfold enumerate. split.
  - intros (a & b & [= -> ->] & [-> _]%lookup_seq & Hb)%lookup_zip_with_Some.
    done.
  - intros [-> Hx]. apply lookup_zip_with_Some. exists k, x.
    split; [done|]. split; [|done].
    apply lookup_seq. split; [done|]. by eapply lookup_lt_Some.
Qed.

Lemma length_enumerate {A} (l : list A) : length (enumerate l) = length l.
Proof.
  unfold enumerate. rewrite length_zip_with, length_seq. lia.
Qed.

Lemma label_at_lookup names k x : names !! k = Some x -> label_at names k = x.
Proof. unfold label_at. by intros ->. Qed.

Lemma label_at_beyond names k : (length names <= k)%nat -> label_at names k = "".
Proof. intros H. unfold label_at. by rewrite lookup_ge_None_2. Qed.

Lemma keeps_text_set_auto_size a : keeps_text (set_auto_size a).
Proof. intros c. eexists. split; reflexivity. Qed.
Lemma keeps_text_set_font_bold b : keeps_text (set_font_bold b).
Proof. intros c. eexists. split; reflexivity. Qed.
Lemma keeps_text_set_font_size n : keeps_text (set_font_size n).
Proof. intros c. eexists. split; reflexivity. Qed.
Lemma keeps_text_set_font_name s : keeps_text (set_font_name s).
Proof. intros c. eexists. split; reflexivity. Qed.
Lemma keeps_text_set_font_color rgb : keeps_text (set_font_color rgb).
Proof. intros c. eexists. split; reflexivity. Qed.
Lemma keeps_text_set_alignment a : keeps_text (set_alignment a).
Proof. intros c. eexists. split; reflexivity. Qed.

Create HintDb style.
#[local] Hint Resolve keeps_text_set_auto_size keeps_text_set_font_bold
  keeps_text_set_font_size keeps_text_set_font_name keeps_text_set_font_color
  keeps_text_set_alignment : style.


Section Blocks.
Variable w0 : World.
Local Abbreviation shp := (length (w_slide w0)).
Variables (geom : Z * Z * Z * Z) (R C : nat).

(** Lines 165-166: the column names go to the first row. *)
Lemma insert_column_names_spec name Pcol names :
  (length names <= C)%nat -> (0 < R)%nat ->
  triple w0 (frame_is geom R C name (shows (fun _ _ => "")) Pcol)
    (insert_column_names shp names)
    (fun _ => frame_is geom R C name
       (shows (fun i j => match i with O => label_at names j | S _ => "" end))
       Pcol).
Proof.
  intros Hlen HR. unfold insert_column_names.
  pose (I := fun k : nat => frame_is geom R C name
    (shows (fun i j => match i with
                       | O => if decide (j < k)%nat then label_at names j else ""
                       | S _ => ""
                       end)) Pcol).
  eapply triple_conseq; [| |apply (triple_for_each w0 _ _ I)].
  - intros g. apply frame_is_mono; [|done].
    intros i j c _ _. unfold shows. destruct i; [|done].
    case_decide; [lia|done].
  - intros ? g. rewrite length_enumerate. apply frame_is_mono; [|done].
    intros i j c _ _. unfold shows. destruct i; [|done].
    case_decide; [done|]. rewrite label_at_beyond by lia. done.
  - intros k [i x] [-> Hx]%lookup_enumerate.
    assert (k < length names)%nat by (by eapply lookup_lt_Some).
    apply triple_set_text; [lia..| |].
    + case_decide; [|lia]. by apply label_at_lookup.
    + intros i' j' Hne. destruct i'; [|done].
      repeat case_decide; try done; lia.
Qed.

(** Lines 113-114: the row names go to the first column. *)
Lemma insert_row_names_spec name Pcol names :
  (length names <= R)%nat -> (0 < C)%nat ->
  triple w0 (frame_is geom R C name (shows (fun _ _ => "")) Pcol)
    (insert_row_names shp names)
    (fun _ => frame_is geom R C name
       (shows (fun i j => match j with O => label_at names i | S _ => "" end))
       Pcol).
Proof.
  intros Hlen HC. unfold insert_row_names.
  pose (I := fun k : nat => frame_is geom R C name
    (shows (fun i j => match j with
                       | O => if decide (i < k)%nat then label_at names i else ""
                       | S _ => ""
                       end)) Pcol).
  eapply triple_conseq; [| |apply (triple_for_each w0 _ _ I)].
  - intros g. apply frame_is_mono; [|done].
    intros i j c _ _. unfold shows. destruct j; [|done].
    case_decide; [lia|done].
  - intros ? g. rewrite length_enumerate. apply frame_is_mono; [|done].
    intros i j c _ _. unfold shows. destruct j; [|done].
    case_decide; [done|]. rewrite label_at_beyond by lia. done.
  - intros k [i x] [-> Hx]%lookup_enumerate.
    assert (k < length names)%nat by (by eapply lookup_lt_Some).
    apply triple_set_text; [lia..| |].
    + case_decide; [|lia]. by apply label_at_lookup.
    + intros i' j' Hne. destruct j'; [|done].
      repeat case_decide; try done; lia.
Qed.

End Blocks.

Section Values.
Variable w0 : World.
Local Abbreviation shp := (length (w_slide w0)).
Variables (geom : Z * Z * Z * Z).
Variables (host : Host) (fmts : option (list string)).
Variables (m : list (list pyvalue)) (rows cols : nat).

Local Abbreviation data := (matrix_text host fmts m).

Hypothesis data_ok :
  forall row col, (row < rows)%nat -> (col < cols)%nat ->
    is_ok (data row col) = true.

Lemma data_ok_inv row col :
  (row < rows)%nat -> (col < cols)%nat ->
  exists val text, matrix_index m row col = Ok val /\
    cell_string host fmts val col = Ok text /\ text_of (data row col) = text.
Proof.
  intros Hr Hc. specialize (data_ok row col Hr Hc).
  unfold matrix_text in *.
  destruct (matrix_index m row col) as [val|]; [|done]. cbn in *.
  destruct (cell_string host fmts val col) as [text|] eqn:Ht; [|done].
  exists val, text. repeat split; done.
Qed.

(** Lines 170-179: the values go below the first row. *)
Lemma insert_values_spec name E Pcol :
  triple w0 (frame_is geom (rows + 1) cols name (shows E) Pcol)
    (insert_values host fmts shp rows cols m)
    (fun _ => frame_is geom (rows + 1) cols name
       (shows (fun i j => match i with
                          | O => E O j
                          | S row => text_of (data row j)
                          end)) Pcol).
Proof.
  unfold insert_values.
  pose (F := fun (r c : nat) (i j : nat) =>
    match i with
    | O => E O j
    | S row =>
        if decide (row < r \/ (row = r /\ j < c))%nat
        then text_of (data row j) else E (S row) j
    end).
  eapply triple_conseq;
    [| |apply (triple_for_range w0 rows _
                 (fun r => frame_is geom (rows + 1) cols name
                             (shows (F r 0%nat)) Pcol))].
  - intros g. apply frame_is_mono; [|done].
    intros i j c _ _. unfold shows, F. destruct i; [done|].
    case_decide; [lia|done].
  - intros ? g. apply frame_is_mono; [|done].
    intros i j c Hi Hj. unfold shows, F. destruct i; [done|].
    case_decide; [done|lia].
  - intros r Hr.
    eapply triple_conseq;
      [| |apply (triple_for_range w0 cols _
                   (fun c => frame_is geom (rows + 1) cols name
                               (shows (F r c)) Pcol))].
    + done.
    + intros ? g. apply frame_is_mono; [|done].
      intros i j c Hi Hj. unfold shows, F. destruct i; [done|].
      repeat case_decide; try done; lia.
    + intros c Hc.
      destruct (data_ok_inv r c Hr Hc) as (val & text & Hval & Htext & Hdata).
      eapply triple_lift; [exact Hval|].
      eapply triple_lift; [exact Htext|].
      rewrite (Nat.add_1_r r).
      apply triple_set_text; [lia..| |].
      * unfold F. case_decide; [exact Hdata|lia].
      * intros i' j' Hne. unfold F. destruct i'; [done|].
        repeat case_decide; try done; lia.
Qed.

(** Lines 118-125: the values go to the right of the first column. *)
Lemma insert_values_transposed_spec name E Pcol :
  triple w0 (frame_is geom rows (cols + 1) name (shows E) Pcol)
    (insert_values_transposed host fmts shp rows cols m)
    (fun _ => frame_is geom rows (cols + 1) name
       (shows (fun i j => match j with
                          | O => E i O
                          | S col => text_of (data i col)
                          end)) Pcol).
Proof.
  unfold insert_values_transposed.
  pose (F := fun (r c : nat) (i j : nat) =>
    match j with
    | O => E i O
    | S col =>
        if decide (i < r \/ (i = r /\ col < c))%nat
        then text_of (data i col) else E i (S col)
    end).
  eapply triple_conseq;
    [| |apply (triple_for_range w0 rows _
                 (fun r => frame_is geom rows (cols + 1) name
                             (shows (F r 0%nat)) Pcol))].
  - intros g. apply frame_is_mono; [|done].
    intros i j c _ _. unfold shows, F. destruct j; [done|].
    case_decide; [lia|done].
  - intros ? g. apply frame_is_mono; [|done].
    intros i j c Hi Hj. unfold shows, F. destruct j; [done|].
    case_decide; [done|lia].
  - intros r Hr.
    eapply triple_conseq;
      [| |apply (triple_for_range w0 cols _
                   (fun c => frame_is geom rows (cols + 1) name
                               (shows (F r c)) Pcol))].
    + done.
    + intros ? g. apply frame_is_mono; [|done].
      intros i j c Hi Hj. unfold shows, F. destruct j; [done|].
      repeat case_decide; try done; lia.
    + intros c Hc.
      destruct (data_ok_inv r c Hr Hc) as (val & text & Hval & Htext & Hdata).
      eapply triple_lift; [exact Hval|].
      eapply triple_lift; [exact Htext|].
      rewrite (Nat.add_1_r c).
      apply triple_set_text; [lia..| |].
      * unfold F. case_decide; [exact Hdata|lia].
      * intros i' j' Hne. unfold F. destruct j'; [done|].
        repeat case_decide; try done; lia.
Qed.
End Values.

Section Formats.
Variable w0 : World.
Local Abbreviation shp := (length (w_slide w0)).
Variables (geom : Z * Z * Z * Z) (rows cols : nat).


End Formats.

Section Columns.
Variable w0 : World.
Local Abbreviation shp := (length (w_slide w0)).
Variables (geom : Z * Z * Z * Z) (R C : nat).

(** The first [n] iterations of the loop of lines 205-206. *)
Lemma assign_widths_prefix name Pc (F : nat -> Column) col_width n :
  (n <= length col_width)%nat -> (n <= C)%nat ->
  triple w0 (frame_is geom R C name Pc (fun i c => c = F i))
    (for_range n (fun i =>
       w ← lift (list_index col_width i);
       column_update shp i (set_column_width w)))
    (fun _ => frame_is geom R C name Pc
       (fun i c => c = if decide (i < n)%nat
                       then match col_width !! i with
                            | Some w => set_column_width w (F i)
                            | None => F i
                            end
                       else F i)).
Proof.
  intros Hlen HC.
  pose (G := fun (k i : nat) =>
    if decide (i < k)%nat
    then match col_width !! i with
         | Some w => set_column_width w (F i)
         | None => F i
         end
    else F i).
  eapply triple_conseq;
    [| |apply (triple_for_range w0 n _
                 (fun k => frame_is geom R C name Pc (fun i c => c = G k i)))].
  - intros g. apply frame_is_mono; [done|].
    intros i c _ ->. unfold G. case_decide; [lia|done].
  - intros ? g Hg. exact Hg.
  - intros k Hk.
    destruct (lookup_lt_is_Some_2 col_width k ltac:(lia)) as [w Hw].
    eapply triple_lift; [unfold list_index; by rewrite Hw|].
    apply triple_column_update; [lia| |].
    + intros c ->. unfold G. repeat case_decide; try lia. by rewrite Hw.
    + intros i' c Hne ->. unfold G. repeat case_decide; try done; lia.
Qed.

(** Lines 205-206: the columns below [len(col_width)] take their width
    from the list. *)
Lemma assign_column_widths_spec name Pc (F : nat -> Column) col_width :
  (length col_width <= C)%nat ->
  triple w0 (frame_is geom R C name Pc (fun i c => c = F i))
    (assign_column_widths shp col_width)
    (fun _ => frame_is geom R C name Pc
       (fun i c => c = match col_width !! i with
                       | Some w => set_column_width w (F i)
                       | None => F i
                       end)).
Proof.
  intros Hlen. unfold assign_column_widths.
  eapply triple_conseq; [done| |by apply assign_widths_prefix].
  intros ? g. apply frame_is_mono; [done|].
  intros i c _ ->. case_decide; [done|].
  by rewrite lookup_ge_None_2 by lia.
Qed.


(** Lines 209-210: the same for the heights. *)
Lemma assign_column_heights_spec name Pc (F : nat -> Column) col_height :
  (length col_height <= C)%nat ->
  triple w0 (frame_is geom R C name Pc (fun i c => c = F i))
    (assign_column_heights shp col_height)
    (fun _ => frame_is geom R C name Pc
       (fun i c => c = match col_height !! i with
                       | Some h => set_column_height h (F i)
                       | None => F i
                       end)).
Proof.
  intros Hlen. unfold assign_column_heights.
  pose (G := fun (k i : nat) =>
    if decide (i < k)%nat
    then match col_height !! i with
         | Some h => set_column_height h (F i)
         | None => F i
         end
    else F i).
  eapply triple_conseq;
    [| |apply (triple_for_range w0 (length col_height) _
                 (fun k => frame_is geom R C name Pc (fun i c => c = G k i)))].
  - intros g. apply frame_is_mono; [done|].
    intros i c _ ->. unfold G. case_decide; [lia|done].
  - intros ? g. apply frame_is_mono; [done|].
    intros i c _ ->. unfold G. case_decide; [done|].
    by rewrite lookup_ge_None_2 by lia.
  - intros k Hk.
    destruct (lookup_lt_is_Some_2 col_height k Hk) as [h Hh].
    eapply triple_lift; [unfold list_index; by rewrite Hh|].
    apply triple_column_update; [lia| |].
    + intros c ->. unfold G. repeat case_decide; try lia. by rewrite Hh.
    + intros i' c Hne ->. unfold G. repeat case_decide; try done; lia.
Qed.

(** Lines 204-212: the end of [df_to_table]. *)
Lemma assign_columns_spec kw name Pc width :
  (kw_set_col_width kw = true -> (length (kw_col_width kw) <= C)%nat) ->
  (kw_set_col_height kw = true -> (length (kw_col_height kw) <= C)%nat) ->
  triple w0
    (frame_is geom R C name Pc
       (fun i c => c = {| column_width := initial_column_width width C i;
                          column_height := None |}))
    (assign_columns kw shp)
    (fun a g => a = shp /\
       frame_is geom R C name Pc
         (fun i c => c = expected_column kw width C i) g).
Proof.
  intros Hw Hh. unfold assign_columns.
  pose (F1 := fun i : nat =>
    {| column_width :=
         if kw_set_col_width kw
         then default (initial_column_width width C i) (kw_col_width kw !! i)
         else initial_column_width width C i;
       column_height := None |}).
  eapply triple_bind with (Q := fun _ => frame_is geom R C name Pc
                                         (fun i c => c = F1 i)).
  { apply triple_if; intros Hb.
    - eapply triple_conseq; [done| |apply assign_column_widths_spec; auto].
      intros ? g. apply frame_is_mono; [done|].
      intros i c _ ->. unfold F1. rewrite Hb.
      by destruct (kw_col_width kw !! i).
    - apply triple_ret. intros g. apply frame_is_mono; [done|].
      intros i c _ ->. unfold F1. by rewrite Hb. }
  intros ?.
  eapply triple_bind with (Q := fun _ => frame_is geom R C name Pc
    (fun i c => c = expected_column kw width C i)).
  { apply triple_if; intros Hb.
    - eapply triple_conseq; [done| |apply assign_column_heights_spec; auto].
      intros ? g. apply frame_is_mono; [done|].
      intros i c _ ->. unfold F1, expected_column. rewrite Hb.
      by destruct (kw_col_height kw !! i).
    - apply triple_ret. intros g. apply frame_is_mono; [done|].
      intros i c _ ->. unfold F1, expected_column. by rewrite Hb. }
  intros ?. by apply triple_ret.
Qed.
End Columns.

(** The frame [add_table] creates. *)
Lemma new_frame_is name x y cx cy rows cols :
  frame_is (x, y, cx, cy) rows cols name (shows (fun _ _ => ""))
    (fun i c => c = {| column_width := initial_column_width cx cols i;
                       column_height := None |})
    {| shape_name := name; shape_left := x; shape_top := y;
       shape_width := cx; shape_height := cy;
       table := new_table rows cols cx |}.
Proof.
  split; cbn; try done.
  - apply length_replicate.
  - intros i row [-> _]%lookup_replicate. apply length_replicate.
  - intros i j row c [-> _]%lookup_replicate [-> _]%lookup_replicate. done.
  - by rewrite length_fmap, length_seq.
  - intros i c. rewrite list_lookup_fmap.
    destruct (seq 0 cols !! i) as [k|] eqn:Hk; [|done].
    apply lookup_seq in Hk as [-> _]. by intros [= <-].
Qed.

Lemma add_table_ok rows cols l t wd h x y cx cy w :
  emu_of l = Ok x -> emu_of t = Ok y -> emu_of wd = Ok cx -> emu_of h = Ok cy ->
  rows <> 0%nat -> cols <> 0%nat ->
  add_table rows cols l t wd h w =
    (Ok (length (w_slide w)),
     world_with w
       {| shape_name := "Table " ++ digits_of_nat (N.of_nat (S (length (w_slide w))));
          shape_left := x; shape_top := y; shape_width := cx; shape_height := cy;
          table := new_table rows cols cx |}).
Proof.
  intros Hl Ht Hwd Hh Hr Hc. unfold add_table. rewrite Hl, Ht, Hwd, Hh.
  cbn [mbind res_mbind res_bind].
  destruct (Nat.eqb_spec rows 0); [done|].
  destruct (Nat.eqb_spec cols 0); [done|]. reflexivity.
Qed.

Lemma is_ok_inv {A} (r : res A) : is_ok r = true -> exists a, r = Ok a.
Proof. destruct r; [by eexists|done]. Qed.

(** * A call that runs to its end *)

Section Call.
Variables (host : Host) (kw : Kwargs) (w : World).
Local Abbreviation shp := (length (w_slide w)).
Local Abbreviation rows := (length (df_index (w_df w))).
Local Abbreviation cols := (length (df_columns (w_df w))).

Lemma triple_read {A B} (m : M A) (v : A) (k : A -> M B) P S :
  (forall g, m (world_with w g) = (Ok v, world_with w g)) ->
  triple w P (k v) S -> triple w P (m ≫= k) S.
Proof.
  intros Hm Hk g Hg. destruct (Hk g Hg) as (b & g' & Hrun & Hs).
  exists b, g'. split; [|done]. by rewrite (run_bind_ok _ _ _ _ _ (Hm g)).
Qed.

Lemma triple_name geom R C name Pc Pcol :
  triple w (frame_is geom R C name Pc Pcol)
    (match kw_name kw with
     | Some name' => set_name shp name'
     | None => mret tt
     end)
    (fun _ => frame_is geom R C
                (match kw_name kw with Some name' => name' | None => name end)
                Pc Pcol).
Proof.
  destruct (kw_name kw) as [name'|]; [apply triple_set_name|by apply triple_ret].
Qed.

Hypothesis data_ok :
  forall row col, (row < rows)%nat -> (col < cols)%nat ->
    is_ok (data_text host kw (w_df w) row col) = true.


End Call.



(** * The claims on [df_to_table] *)

Lemma frame_cell_text_at geom R C name E Pcol g i j :
  frame_is geom R C name (shows E) Pcol g ->
  (i < R)%nat -> (j < C)%nat -> cell_text_at g i j = Some (E i j).
Proof.
  intros [Hn Hg Hr Hl Hcell Hnc Hcl] Hi Hj. unfold cell_text_at.
  destruct (lookup_lt_is_Some_2 (cells (table g)) i) as [row Hrow]; [lia|].
  destruct (lookup_lt_is_Some_2 row j) as [c Hc].
  { rewrite (Hl i row Hrow). lia. }
  rewrite Hrow. cbn. rewrite Hc. cbn. f_equal. by eapply Hcell.
Qed.


Lemma run_table_world host kw w g :
  df_to_table host kw w = (Ok (length (w_slide w)), world_with w g) ->
  run_table host kw w = Some g.
Proof.
  intros Hrun. unfold run_table. rewrite Hrun. cbn.
  by rewrite list_lookup_middle.
Qed.











(** * Further properties of the formatter *)

Lemma endswith_nonempty s c : endswith s c = true -> s <> "".
Proof. by destruct s. Qed.

Lemma endswith_other s c c' :
  endswith s c = true -> c <> c' -> endswith s c' = false.
Proof.
  intros Hs Hne. induction s as [|a s IH]; [done|].
  destruct s as [|b s].
  - cbn in *. apply Ascii.eqb_eq in Hs as ->. by apply Ascii.eqb_neq.
  - rewrite endswith_cons in * by done. by apply IH.
Qed.

(** X1: [_do_formatting] raises exactly when the rounding branch is entered
    and cannot round, and what it raises then is [ValueError]; in every
    other case it returns a string. *)
Theorem do_formatting_raises_iff (host : Host) (v : pyvalue) (fs : string) :
  if rounding_fails v fs
  then _do_formatting host v fs = Raise ValueError
  else exists s, _do_formatting host v fs = Ok s.
Proof.
  unfold rounding_fails.
  destruct (is_integer v && endswith fs "R"%char) eqn:Hbranch.
  2:{ replace (is_integer v && starts_with_dot fs && endswith fs "R"%char)
        with false.
      - destruct (select_format_returns v fs Hbranch) as [p Hp].
        by eapply do_formatting_returns.
      - destruct (is_integer v), (starts_with_dot fs), (endswith fs "R"%char);
          done. }
  apply andb_true_iff in Hbranch as [Hint HR]. rewrite Hint, HR.
  destruct v as [z| | |]; try discriminate Hint. cbn [is_integer andb].
  destruct fs as [|c0 rest]; [discriminate HR|].
  cbn [starts_with_dot]. rewrite andb_true_r.
  destruct (Ascii.eqb c0 "."%char) eqn:Hdot; cbn [andb orb].
  2:{ eapply do_formatting_returns. unfold select_format.
      cbn [String.eqb str_index String.get mbind res_mbind res_bind].
      by rewrite Hdot. }
  apply Ascii.eqb_eq in Hdot as ->.
  destruct rest as [|c1 rest]; [discriminate HR|].
  unfold second_is_digit, is_zero_int. cbn [String.get].
  unfold _do_formatting, select_format.
  cbn [String.eqb str_index String.get mbind res_mbind res_bind].
  change (Ascii.eqb "." ".") with true. cbv iota. rewrite HR.
  cbn [is_integer].
  destruct (int_of_char c1) as [n|e] eqn:Hd; cbn [is_ok negb orb].
  - unfold round_to_n. cbn [py_abs mbind res_mbind res_bind floor_log10].
    destruct (Z.eqb_spec z 0) as [->|Hz].
    + reflexivity.
    + destruct (Z.ltb_spec 0 (Z.abs z)); [|lia].
      cbn [py_round]. apply format_or_plain_returns.
  - unfold int_of_char in Hd.
    destruct (_ && _); [discriminate Hd|]. by injection Hd as <-.
Qed.

(** X2: in the rounding branch only the character after the dot is read:
    whatever stands between it and the final ['R'] is ignored, so that
    ['.25R'] formats like ['.2R']. *)
Theorem rounding_reads_one_digit (host : Host) (z : Z) (d : ascii)
  (rest : string) :
  _do_formatting host (VInt z) (String "." (String d (rest ++ "R"))) =
  _do_formatting host (VInt z) (String "." (String d "R")).
Proof.
  unfold _do_formatting, select_format.
  cbn [String.eqb str_index String.get mbind res_mbind res_bind].
  change (Ascii.eqb "." ".") with true. cbv iota.
  assert (HR : endswith (String "." (String d (rest ++ "R"))) "R"%char = true).
  { rewrite endswith_cons by done.
    change (String d (rest ++ "R")) with (String d rest ++ "R").
    apply endswith_app_char. }
  rewrite HR. change (endswith (String "." (String d "R")) "R"%char) with true.
  reflexivity.
Qed.

Lemma select_format_dot (v : pyvalue) (rest : string) :
  is_integer v && endswith (String "." rest) "R"%char = false ->
  select_format v (String "." rest) =
    Ok (v, if endswith (String "." rest) "G"%char
           then String "." rest else String "." rest ++ "G").
Proof.
  intros Hb. unfold select_format.
  cbn [String.eqb str_index String.get mbind res_mbind res_bind].
  change (Ascii.eqb "." ".") with true. cbv iota.
  destruct (endswith (String "." rest) "R"%char) eqn:HR.
  - rewrite andb_true_r in Hb. rewrite Hb.
    cbn [mbind res_mbind res_bind].
    by destruct (endswith (String "." rest) "G"%char).
  - cbn [mbind res_mbind res_bind].
    by destruct (endswith (String "." rest) "G"%char).
Qed.

(** X3: for a value that is not an integer, or a specification without a
    final ['R'], a specification that begins with a dot reaches [format]
    with the value unchanged and a ['G'] appended unless it ends with one:
    for a float, ['.2R'] becomes ['.2RG'] and the ['R'] is not consumed. *)
Theorem dot_spec_without_rounding (v : pyvalue) (rest : string) :
  is_integer v && endswith (String "." rest) "R"%char = false ->
  select_format v (String "." rest) =
    Ok (v, if endswith (String "." rest) "G"%char
           then String "." rest else String "." rest ++ "G").
Proof. apply select_format_dot. Qed.

Lemma dot_spec_without_rounding_witness :
  is_integer (VFloat (5 # 2)) && endswith ".2R" "R"%char = false /\
  select_format (VFloat (5 # 2)) ".2R" = Ok (VFloat (5 # 2), ".2RG").
Proof.
  split; [reflexivity|].
  exact (dot_spec_without_rounding (VFloat (5 # 2)) "2R" eq_refl).
Defined.

Lemma select_format_other (v : pyvalue) (fs : string) :
  fs <> "" -> starts_with_dot fs = false -> select_format v fs = Ok (v, fs).
Proof.
  intros Hne Hdot. unfold select_format.
  destruct fs as [|c0 rest]; [done|].
  cbn [String.eqb str_index String.get mbind res_mbind res_bind].
  cbn [starts_with_dot] in Hdot. by rewrite Hdot.
Qed.

(** X4: a specification that is not empty and does not begin with a dot
    reaches [format] as it is, with the value as it is, also when it ends
    with ['R'] or ['G']. *)
Theorem other_spec_unchanged (v : pyvalue) (fs : string) :
  fs <> "" -> starts_with_dot fs = false -> select_format v fs = Ok (v, fs).
Proof. apply select_format_other. Qed.

Lemma other_spec_unchanged_witness :
  ",R" <> "" /\ starts_with_dot ",R" = false /\
  select_format (VInt 12345) ",R" = Ok (VInt 12345, ",R").
Proof.
  assert (H : ",R" <> "") by discriminate.
  split; [exact H|]. split; [reflexivity|].
  exact (other_spec_unchanged (VInt 12345) ",R" H eq_refl).
Defined.

(** X5: the selection is idempotent: the value and the specification it
    returns are returned again when they are given back to it. *)
Theorem select_format_idempotent (v v' : pyvalue) (fs fs' : string) :
  select_format v fs = Ok (v', fs') -> select_format v' fs' = Ok (v', fs').
Proof.
  intros Hsel.
  destruct fs as [|c0 rest].
  { cbn in Hsel. injection Hsel as <- <-. by destruct v. }
  destruct (Ascii.eqb c0 "."%char) eqn:Hdot.
  2:{ assert (Hsame : select_format v (String c0 rest) = Ok (v, String c0 rest))
        by (by apply select_format_other).
      rewrite Hsame in Hsel. injection Hsel as <- <-. exact Hsame. }
  apply Ascii.eqb_eq in Hdot as ->.
  pose proof (select_format_dot_ends_with_G _ _ _ _ Hsel) as HG.
  destruct (is_integer v && endswith (String "." rest) "R"%char) eqn:Hb.
  - apply andb_true_iff in Hb as [Hint HR].
    destruct v as [z| | |]; try discriminate Hint.
    revert Hsel. unfold select_format at 1.
    cbn [String.eqb str_index String.get mbind res_mbind res_bind].
    change (Ascii.eqb "." ".") with true. cbv iota. rewrite HR.
    cbn [is_integer]. unfold mbind, res_mbind, res_bind.
    destruct (str_index (String "." rest) 1) as [c1|]; [|discriminate].
    destruct (int_of_char c1) as [n|]; [|discriminate].
    destruct (round_to_n (VInt z) n) as [r|]; [|discriminate].
    intros [= <- <-]. reflexivity.
  - rewrite select_format_dot in Hsel by done.
    destruct (endswith (String "." rest) "G"%char) eqn:HG0;
      injection Hsel as <- <-.
    + rewrite select_format_dot by done. by rewrite HG0.
    + change (String "." rest ++ "G") with (String "." (rest ++ "G")) in *.
      rewrite select_format_dot.
      * by rewrite HG.
      * rewrite (endswith_other _ _ "R"%char HG) by discriminate.
        apply andb_false_r.
Qed.

Lemma select_format_idempotent_witness :
  select_format (VInt 1234) ".2R" = Ok (VInt 1200, ",G") /\
  select_format (VInt 1200) ",G" = Ok (VInt 1200, ",G").
Proof.
  split; [reflexivity|].
  exact (select_format_idempotent (VInt 1234) (VInt 1200) ".2R" ",G" eq_refl).
Defined.


(** * Further properties of the rounding *)

Lemma div_half_even_opp a b :
  0 < b -> div_half_even (- a) b = - div_half_even a b.
Proof.
  intros Hb. unfold div_half_even.
  pose proof (Z.mod_pos_bound a b Hb) as Hmod.
  destruct (Z.eq_dec (a mod b) 0) as [Hz|Hnz].
  - rewrite Z.div_opp_l_z, Z.mod_opp_l_z by lia. rewrite Hz.
    destruct (Z.ltb_spec (2 * 0) b); [done|lia].
  - rewrite Z.div_opp_l_nz, Z.mod_opp_l_nz by lia.
    set (q := a / b). set (r := a mod b) in *.
    destruct (Z.ltb_spec (2 * (b - r)) b), (Z.ltb_spec (2 * r) b); try lia;
      destruct (Z.ltb_spec b (2 * (b - r))), (Z.ltb_spec b (2 * r)); try lia.
    replace (- q - 1) with (- (q + 1)) by lia.
    rewrite Z.even_opp, Z.even_add. cbn.
    destruct (Z.even q); cbn; lia.
Qed.

Lemma round_int_opp x nd : round_int (- x) nd = - round_int x nd.
Proof.
  unfold round_int. destruct (Z.leb_spec 0 nd); [done|].
  rewrite div_half_even_opp by (apply Z.pow_pos_nonneg; lia).
  apply Z.mul_opp_r.
Qed.

(** X6: the rounding is symmetric: the opposite of an integer rounds to the
    opposite of what the integer rounds to. *)
Theorem round_to_n_opp (x n r : Z) :
  round_to_n (VInt x) n = Ok (VInt r) ->
  round_to_n (VInt (- x)) n = Ok (VInt (- r)).
Proof.
  unfold round_to_n. cbn [py_abs mbind res_mbind res_bind floor_log10].
  rewrite Z.abs_opp. destruct (0 <? Z.abs x); [|discriminate].
  cbn [py_round mbind res_mbind res_bind]. intros [= <-].
  by rewrite round_int_opp.
Qed.

Lemma round_to_n_opp_witness :
  round_to_n (VInt 1250) 2 = Ok (VInt 1200) /\
  round_to_n (VInt (- 1250)) 2 = Ok (VInt (- 1200)).
Proof.
  split; [reflexivity|]. exact (round_to_n_opp 1250 2 1200 eq_refl).
Defined.











(** * The cells after the formatting blocks *)

Lemma run_bind_raise {A B} (m : M A) (k : A -> M B) w e w' :
  m w = (Raise e, w') -> (m ≫= k) w = (Raise e, w').
Proof. intros H. unfold mbind, M_bind. by rewrite H. Qed.

Section Cells.
Variable w0 : World.
Local Abbreviation shp := (length (w_slide w0)).

Lemma world_with_inj g g' : world_with w0 g = world_with w0 g' -> g = g'.
Proof.
  unfold world_with. intros [= H]. apply app_inv_head in H. by injection H.
Qed.

(** Two facts about one run. *)
Lemma triple_conj {A} (m : M A) (P1 P2 : GraphicFrame -> Prop) Q1 Q2 :
  triple w0 P1 m Q1 -> triple w0 P2 m Q2 ->
  triple w0 (fun g => P1 g /\ P2 g) m (fun a g => Q1 a g /\ Q2 a g).
Proof.
  intros H1 H2 g [Hp1 Hp2].
  destruct (H1 g Hp1) as (a & g1 & Hrun1 & Hq1).
  destruct (H2 g Hp2) as (a2 & g2 & Hrun2 & Hq2).
  rewrite Hrun1 in Hrun2. injection Hrun2 as <- Hw.
  assert (g1 = g2) as <-.
  { apply world_with_inj. unfold world_with. by rewrite Hw. }
  by exists a, g1.
Qed.

Variables (geom : Z * Z * Z * Z) (R C : nat).

Lemma frame_is_text_cells name E Pcol g :
  frame_is geom R C name (shows E) Pcol g ->
  frame_is geom R C name (fun _ _ => unstyled) Pcol g ->
  frame_is geom R C name (exactly (fun i j => text_cell (E i j))) Pcol g.
Proof.
  intros [Hn Hg Hr Hl Hcell Hnc Hcl] [_ _ _ _ Hcell' _ _].
  split; try done. intros i j row c Hrow Hc. unfold exactly.
  rewrite <- (Hcell i j row c Hrow Hc). by eapply Hcell'.
Qed.

Lemma frame_is_shows name B Pcol g :
  frame_is geom R C name (exactly B) Pcol g ->
  frame_is geom R C name (shows (fun i j => cell_text (B i j))) Pcol g.
Proof.
  apply frame_is_mono; [|done]. intros i j c _ _ ->. reflexivity.
Qed.

Lemma frame_cell_at name B Pcol g i j :
  frame_is geom R C name (exactly B) Pcol g ->
  (i < R)%nat -> (j < C)%nat -> cell_at g i j = Some (B i j).
Proof.
  intros [Hn Hg Hr Hl Hcell Hnc Hcl] Hi Hj. unfold cell_at.
  destruct (lookup_lt_is_Some_2 (cells (table g)) i) as [row Hrow]; [lia|].
  destruct (lookup_lt_is_Some_2 row j) as [c Hc].
  { rewrite (Hl i row Hrow). lia. }
  rewrite Hrow. cbn. rewrite Hc. f_equal. by eapply Hcell.
Qed.

(** An assignment to a cell whose content is known. *)
Lemma triple_cell_exact name B Pcol i j f c0 c1 :
  (i < R)%nat -> (j < C)%nat -> f c0 = Ok c1 ->
  triple w0 (frame_is geom R C name (exactly (with_cell B i j c0)) Pcol)
    (cell_update shp i j f)
    (fun _ => frame_is geom R C name (exactly (with_cell B i j c1)) Pcol).
Proof.
  intros Hi Hj Hf. apply triple_cell_update; [done..| |].
  - intros c Hc. unfold exactly, with_cell in *.
    case_decide as Hd; [|by destruct Hd]. subst c. by exists c1.
  - intros i' j' c Hne Hc. unfold exactly, with_cell in *.
    case_decide as Hd; [|done]. destruct Hd as [-> ->]. by destruct Hne.
Qed.

(** The assignments to the cell [(i, j)], from the cell [c0] to the cell
    [c1], as one step from the grid [B] to the grid [B']. *)
Lemma triple_cell_block {A} (m : M A) name B B' Pcol i j c0 c1 :
  (i < R)%nat -> (j < C)%nat ->
  B i j = c0 -> B' i j = c1 ->
  (forall i' j', (i' <> i \/ j' <> j) -> B' i' j' = B i' j') ->
  triple w0 (frame_is geom R C name (exactly (with_cell B i j c0)) Pcol) m
    (fun _ => frame_is geom R C name (exactly (with_cell B i j c1)) Pcol) ->
  triple w0 (frame_is geom R C name (exactly B) Pcol) m
    (fun _ => frame_is geom R C name (exactly B') Pcol).
Proof.
  intros Hi Hj H0 H1 Hother Hm.
  eapply triple_conseq; [| |exact Hm].
  - intros g. apply frame_is_mono; [|done].
    intros i' j' c _ _ ->. unfold exactly, with_cell. case_decide as Hd; [|done].
    destruct Hd as [-> ->]. done.
  - intros ? g. apply frame_is_mono; [|done].
    intros i' j' c _ _ ->. unfold exactly, with_cell. case_decide as Hd.
    + destruct Hd as [-> ->]. done.
    + symmetry. apply Hother.
      destruct (decide (i' = i)), (decide (j' = j)); try tauto.
Qed.
End Cells.

(** One assignment to a known cell after the other. *)
Ltac cell_steps :=
  repeat first
    [ eapply triple_bind;
        [apply triple_cell_exact; [lia|lia|reflexivity]|intros ?]
    | apply triple_cell_exact; [lia|lia|reflexivity] ].

Section ExactFormats.
Variable w0 : World.
Local Abbreviation shp := (length (w_slide w0)).
Variables (geom : Z * Z * Z * Z) (rows cols : nat).
Variables (font_size : Z) (E : nat -> nat -> string).

(** Lines 134-140 and 187-193 on a cell that has only its text. *)
Lemma format_cell_text_exact R C name B B' Pcol i j :
  (i < R)%nat -> (j < C)%nat ->
  B i j = text_cell (E i j) ->
  B' i j = formatted_cell font_size false ALIGN_CENTER NoFill (E i j) ->
  (forall i' j', (i' <> i \/ j' <> j) -> B' i' j' = B i' j') ->
  triple w0 (frame_is geom R C name (exactly B) Pcol)
    (format_cell_text shp font_size i j)
    (fun _ => frame_is geom R C name (exactly B') Pcol).
Proof.
  intros Hi Hj H0 H1 Hother.
  eapply triple_cell_block; [exact Hi|exact Hj|exact H0|exact H1|exact Hother|].
  unfold format_cell_text. cell_steps.
Qed.

(** The loop of lines 132-140 and 185-193 over a grid of cells that have
    only their text. *)
Lemma format_all_cells_exact R C name Pcol :
  triple w0
    (frame_is geom R C name (exactly (fun i j => text_cell (E i j))) Pcol)
    (for_range R (fun i =>
       for_range C (fun j => format_cell_text shp font_size i j)))
    (fun _ => frame_is geom R C name
       (exactly (fun i j =>
          formatted_cell font_size false ALIGN_CENTER NoFill (E i j))) Pcol).
Proof.
  pose (F := fun (r c : nat) (i j : nat) =>
    if decide (i < r \/ (i = r /\ j < c))%nat
    then formatted_cell font_size false ALIGN_CENTER NoFill (E i j)
    else text_cell (E i j)).
  eapply triple_conseq;
    [| |apply (triple_for_range w0 R _
                 (fun r => frame_is geom R C name (exactly (F r 0%nat)) Pcol))].
  - intros g. apply frame_is_mono; [|done].
    intros i j c _ _ ->. unfold exactly, F. case_decide; [lia|done].
  - intros ? g. apply frame_is_mono; [|done].
    intros i j c Hi Hj ->. unfold exactly, F. case_decide; [done|lia].
  - intros r Hr.
    eapply triple_conseq;
      [| |apply (triple_for_range w0 C _
                   (fun c => frame_is geom R C name (exactly (F r c)) Pcol))].
    + done.
    + intros ? g. apply frame_is_mono; [|done].
      intros i j c Hi Hj ->. unfold exactly, F.
      repeat case_decide; try done; lia.
    + intros c Hc. apply format_cell_text_exact; [lia|lia| | |].
      * unfold F. case_decide; [lia|done].
      * unfold F. case_decide; [done|lia].
      * intros i' j' Hne. unfold F. repeat case_decide; try done; lia.
Qed.

(** Lines 185-202. *)
Lemma format_vertical_exact name Pcol :
  triple w0
    (frame_is geom (rows + 1) cols name
       (exactly (fun i j => text_cell (E i j))) Pcol)
    (format_vertical shp rows cols font_size)
    (fun _ => frame_is geom (rows + 1) cols name
       (exactly (fun i j => vertical_cell font_size i (E i j))) Pcol).
Proof.
  unfold format_vertical.
  eapply triple_bind; [apply format_all_cells_exact|intros ?].
  pose (F := fun (k : nat) (i j : nat) =>
    if decide (i = 0 /\ j < k)%nat
    then formatted_cell font_size true ALIGN_CENTER NoFill (E i j)
    else formatted_cell font_size false ALIGN_CENTER NoFill (E i j)).
  eapply triple_conseq;
    [| |apply (triple_for_range w0 cols _
                 (fun k => frame_is geom (rows + 1) cols name
                             (exactly (F k)) Pcol))].
  - intros g. apply frame_is_mono; [|done].
    intros i j c _ _ ->. unfold exactly, F. case_decide; [lia|done].
  - intros ? g. apply frame_is_mono; [|done].
    intros i j c Hi Hj ->. unfold exactly, F, vertical_cell.
    destruct i; case_decide; try done; lia.
  - intros k Hk.
    eapply (triple_cell_block w0 geom (rows + 1) cols _ name (F k) (F (S k))
              Pcol 0 k
              (formatted_cell font_size false ALIGN_CENTER NoFill (E 0 k))
              (formatted_cell font_size true ALIGN_CENTER NoFill (E 0 k)));
      [lia|lia| | | |].
    + unfold F. case_decide; [lia|done].
    + unfold F. case_decide; [done|lia].
    + intros i' j' Hne. unfold F. repeat case_decide; try done; lia.
    + cell_steps.
Qed.

(** Lines 132-155. *)
Lemma format_transposed_exact name Pcol :
  (0 < rows)%nat ->
  triple w0
    (frame_is geom rows (cols + 1) name
       (exactly (fun i j => text_cell (E i j))) Pcol)
    (format_transposed shp rows cols font_size)
    (fun _ => frame_is geom rows (cols + 1) name
       (exactly (fun i j => transposed_cell font_size i j (E i j))) Pcol).
Proof.
  intros Hrows. unfold format_transposed.
  eapply triple_bind; [apply format_all_cells_exact|intros ?].
  pose (F := fun (k : nat) (i j : nat) =>
    if decide (j = 0 /\ i < k)%nat
    then formatted_cell font_size true ALIGN_LEFT
           (Solid (Some (RGB 79 129 189))) (E i j)
    else formatted_cell font_size false ALIGN_CENTER NoFill (E i j)).
  eapply triple_bind with
    (Q := fun _ => frame_is geom rows (cols + 1) name (exactly (F rows)) Pcol).
  { eapply triple_conseq;
      [| |apply (triple_for_range w0 rows _
                   (fun k => frame_is geom rows (cols + 1) name
                               (exactly (F k)) Pcol))].
    - intros g. apply frame_is_mono; [|done].
      intros i j c _ _ ->. unfold exactly, F. case_decide; [lia|done].
    - intros ? g Hg. exact Hg.
    - intros k Hk.
      eapply (triple_cell_block w0 geom rows (cols + 1) _ name (F k) (F (S k))
                Pcol k 0
                (formatted_cell font_size false ALIGN_CENTER NoFill (E k 0))
                (formatted_cell font_size true ALIGN_LEFT
                   (Solid (Some (RGB 79 129 189))) (E k 0)));
        [lia|lia| | | |].
      + unfold F. case_decide; [lia|done].
      + unfold F. case_decide; [done|lia].
      + intros i' j' Hne. unfold F. repeat case_decide; try done; lia.
      + cell_steps. }
  intros ?.
  pose (G := fun (k : nat) (i j : nat) =>
    if decide (i = 0 /\ 1 <= j /\ j < k + 1)%nat
    then formatted_cell font_size false ALIGN_CENTER
           (Solid (Some (RGB 233 237 244))) (E i j)
    else F rows i j).
  eapply triple_conseq;
    [| |apply (triple_for_range w0 cols _
                 (fun k => frame_is geom rows (cols + 1) name
                             (exactly (G k)) Pcol))].
  - intros g. apply frame_is_mono; [|done].
    intros i j c _ _ ->. unfold exactly, G. case_decide; [lia|done].
  - intros ? g. apply frame_is_mono; [|done].
    intros i j c Hi Hj ->. unfold exactly, G, F, transposed_cell.
    destruct j, i; repeat case_decide; try done; lia.
  - intros k Hk.
    eapply (triple_cell_block w0 geom rows (cols + 1) _ name (G k) (G (S k))
              Pcol 0 (k + 1)
              (formatted_cell font_size false ALIGN_CENTER NoFill
                 (E 0 (k + 1)))
              (formatted_cell font_size false ALIGN_CENTER
                 (Solid (Some (RGB 233 237 244))) (E 0 (k + 1))));
      [lia|lia| | | |].
    + unfold G, F. repeat case_decide; try done; lia.
    + unfold G. case_decide; [done|lia].
    + intros i' j' Hne. unfold G. repeat case_decide; try done; lia.
    + cell_steps.
Qed.
End ExactFormats.

(** * The texts are written into cells that stay unstyled *)

Section Unstyled.
Variable w0 : World.
Local Abbreviation shp := (length (w_slide w0)).
Variables (geom : Z * Z * Z * Z) (R C : nat).

Lemma triple_set_text_unstyled name Pcol i j s :
  (i < R)%nat -> (j < C)%nat ->
  triple w0 (frame_is geom R C name (fun _ _ => unstyled) Pcol)
    (cell_update shp i j (set_text s))
    (fun _ => frame_is geom R C name (fun _ _ => unstyled) Pcol).
Proof.
  intros Hi Hj. apply triple_cell_update; [done..| |done].
  intros c Hc. eexists. split; [reflexivity|].
  unfold unstyled in *. rewrite Hc. reflexivity.
Qed.

Lemma insert_column_names_unstyled name Pcol names :
  (length names <= C)%nat -> (0 < R)%nat ->
  triple w0 (frame_is geom R C name (fun _ _ => unstyled) Pcol)
    (insert_column_names shp names)
    (fun _ => frame_is geom R C name (fun _ _ => unstyled) Pcol).
Proof.
  intros Hlen HR. unfold insert_column_names.
  apply (triple_for_each w0 _ _
           (fun _ => frame_is geom R C name (fun _ _ => unstyled) Pcol)).
  intros k [i x] [-> Hx]%lookup_enumerate.
  assert (k < length names)%nat by (by eapply lookup_lt_Some).
  apply triple_set_text_unstyled; lia.
Qed.

Lemma insert_row_names_unstyled name Pcol names :
  (length names <= R)%nat -> (0 < C)%nat ->
  triple w0 (frame_is geom R C name (fun _ _ => unstyled) Pcol)
    (insert_row_names shp names)
    (fun _ => frame_is geom R C name (fun _ _ => unstyled) Pcol).
Proof.
  intros Hlen HC. unfold insert_row_names.
  apply (triple_for_each w0 _ _
           (fun _ => frame_is geom R C name (fun _ _ => unstyled) Pcol)).
  intros k [i x] [-> Hx]%lookup_enumerate.
  assert (k < length names)%nat by (by eapply lookup_lt_Some).
  apply triple_set_text_unstyled; lia.
Qed.
End Unstyled.

Section UnstyledValues.
Variable w0 : World.
Local Abbreviation shp := (length (w_slide w0)).
Variables (geom : Z * Z * Z * Z).
Variables (host : Host) (fmts : option (list string)).
Variables (m : list (list pyvalue)) (rows cols : nat).

Hypothesis data_ok :
  forall row col, (row < rows)%nat -> (col < cols)%nat ->
    is_ok (matrix_text host fmts m row col) = true.

Lemma insert_values_unstyled name Pcol :
  triple w0 (frame_is geom (rows + 1) cols name (fun _ _ => unstyled) Pcol)
    (insert_values host fmts shp rows cols m)
    (fun _ => frame_is geom (rows + 1) cols name (fun _ _ => unstyled) Pcol).
Proof.
  unfold insert_values.
  apply triple_for_range_same. intros r Hr.
  apply triple_for_range_same. intros c Hc.
  destruct (data_ok_inv host fmts m rows cols data_ok r c Hr Hc)
    as (val & text & Hval & Htext & _).
  eapply triple_lift; [exact Hval|].
  eapply triple_lift; [exact Htext|].
  apply triple_set_text_unstyled; lia.
Qed.

Lemma insert_values_transposed_unstyled name Pcol :
  triple w0 (frame_is geom rows (cols + 1) name (fun _ _ => unstyled) Pcol)
    (insert_values_transposed host fmts shp rows cols m)
    (fun _ => frame_is geom rows (cols + 1) name (fun _ _ => unstyled) Pcol).
Proof.
  unfold insert_values_transposed.
  apply triple_for_range_same. intros r Hr.
  apply triple_for_range_same. intros c Hc.
  destruct (data_ok_inv host fmts m rows cols data_ok r c Hr Hc)
    as (val & text & Hval & Htext & _).
  eapply triple_lift; [exact Hval|].
  eapply triple_lift; [exact Htext|].
  apply triple_set_text_unstyled; lia.
Qed.
End UnstyledValues.

(** * The frame a call fills, cell by cell *)

Section FilledCall.
Variables (host : Host) (kw : Kwargs) (w : World).
Local Abbreviation shp := (length (w_slide w)).
Local Abbreviation rows := (length (df_index (w_df w))).
Local Abbreviation cols := (length (df_columns (w_df w))).

Hypothesis data_ok :
  forall row col, (row < rows)%nat -> (col < cols)%nat ->
    is_ok (data_text host kw (w_df w) row col) = true.

(** The two facts a text block keeps: the texts shown, and that nothing
    else is assigned. *)
Local Abbreviation both geom R C name E Pcol :=
  (fun g => frame_is geom R C name (shows E) Pcol g /\
            frame_is geom R C name (fun _ _ => unstyled) Pcol g).

(** Lines 161-202, cell by cell. *)
Lemma fill_vertical_cells geom name Pcol :
  kw_transposed kw = false ->
  (length (labels kw (w_df w)) <= cols)%nat ->
  triple w
    (frame_is geom (rows + 1) cols name (exactly (fun _ _ => empty_cell)) Pcol)
    (fill_vertical host kw shp rows cols)
    (fun a g => a = shp /\
       frame_is geom (rows + 1) cols
         (match kw_name kw with Some name' => name' | None => name end)
         (exactly (expected_cell host kw (w_df w))) Pcol g).
Proof.
  intros Htr Hlab. unfold fill_vertical.
  eapply triple_conseq with
    (P := both geom (rows + 1)%nat cols name (fun _ _ => "") Pcol);
    [|intros ? ? Hg; exact Hg|].
  { intros g Hg. split; revert Hg; (apply frame_is_mono; [|done]);
      by intros i j c _ _ ->. }
  apply (triple_read _ _ (labels kw (w_df w))).
  { intros g. unfold labels. rewrite Htr. by destruct (kw_colnames kw). }
  eapply triple_bind.
  { apply triple_conj;
      [apply insert_column_names_spec|apply insert_column_names_unstyled];
      (done || lia). }
  intros ?. apply (triple_read _ _ (df_values (w_df w))); [done|].
  eapply triple_bind.
  { apply triple_conj;
      [apply insert_values_spec|apply insert_values_unstyled]; exact data_ok. }
  intros ?. eapply triple_bind.
  { apply triple_conj; apply triple_name. }
  intros ?. cbv beta.
  set (name' := match kw_name kw with Some n => n | None => name end).
  eapply triple_bind with
    (Q := fun _ => frame_is geom (rows + 1) cols name'
                     (exactly (expected_cell host kw (w_df w))) Pcol).
  2:{ intros ?. by apply triple_ret. }
  eapply triple_conseq;
    [intros g [Hs Hu]; exact (frame_is_text_cells _ _ _ _ _ _ _ Hs Hu)
    |intros ? ? Hg; exact Hg|].
  apply triple_if; intros Hb.
  - eapply triple_conseq; [done| |apply format_vertical_exact].
    intros ? g. apply frame_is_mono; [|done].
    intros i j c _ _ ->. unfold exactly, expected_cell, expected_text.
    apply negb_true_iff in Hb. rewrite Hb, Htr. by destruct i.
  - apply triple_ret. intros g. apply frame_is_mono; [|done].
    intros i j c _ _ ->. unfold exactly, expected_cell, expected_text.
    apply negb_false_iff in Hb. rewrite Hb, Htr. by destruct i.
Qed.

(** Lines 109-155, cell by cell. *)
Lemma fill_transposed_cells geom name Pcol :
  kw_transposed kw = true ->
  (length (labels kw (w_df w)) <= rows)%nat ->
  (0 < rows)%nat ->
  triple w
    (frame_is geom rows (cols + 1) name (exactly (fun _ _ => empty_cell)) Pcol)
    (fill_transposed host kw shp rows cols)
    (fun a g => a = shp /\
       frame_is geom rows (cols + 1)
         (match kw_name kw with Some name' => name' | None => name end)
         (exactly (expected_cell host kw (w_df w))) Pcol g).
Proof.
  intros Htr Hlab Hrows. unfold fill_transposed.
  eapply triple_conseq with
    (P := both geom rows (cols + 1)%nat name (fun _ _ => "") Pcol);
    [|intros ? ? Hg; exact Hg|].
  { intros g Hg. split; revert Hg; (apply frame_is_mono; [|done]);
      by intros i j c _ _ ->. }
  apply (triple_read _ _ (labels kw (w_df w))).
  { intros g. unfold labels. rewrite Htr. by destruct (kw_rownames kw). }
  eapply triple_bind.
  { apply triple_conj;
      [apply insert_row_names_spec|apply insert_row_names_unstyled];
      (done || lia). }
  intros ?. apply (triple_read _ _ (df_values (w_df w))); [done|].
  eapply triple_bind.
  { apply triple_conj;
      [apply insert_values_transposed_spec
      |apply insert_values_transposed_unstyled]; exact data_ok. }
  intros ?. eapply triple_bind.
  { apply triple_conj; apply triple_name. }
  intros ?. cbv beta.
  set (name' := match kw_name kw with Some n => n | None => name end).
  eapply triple_bind with
    (Q := fun _ => frame_is geom rows (cols + 1) name'
                     (exactly (expected_cell host kw (w_df w))) Pcol).
  2:{ intros ?. by apply triple_ret. }
  eapply triple_conseq;
    [intros g [Hs Hu]; exact (frame_is_text_cells _ _ _ _ _ _ _ Hs Hu)
    |intros ? ? Hg; exact Hg|].
  apply triple_if; intros Hb.
  - eapply triple_conseq; [done| |by apply format_transposed_exact].
    intros ? g. apply frame_is_mono; [|done].
    intros i j c _ _ ->. unfold exactly, expected_cell, expected_text.
    apply negb_true_iff in Hb. rewrite Hb, Htr. by destruct j.
  - apply triple_ret. intros g. apply frame_is_mono; [|done].
    intros i j c _ _ ->. unfold exactly, expected_cell, expected_text.
    apply negb_false_iff in Hb. rewrite Hb, Htr. by destruct j.
Qed.
End FilledCall.

Lemma call_ok_fill_ok host kw df :
  call_ok host kw df =
    fill_ok host kw df &&
    (negb (kw_set_col_width kw) ||
     Nat.leb (length (kw_col_width kw)) (table_cols kw df)) &&
    (negb (kw_set_col_height kw) ||
     Nat.leb (length (kw_col_height kw)) (table_cols kw df)).
Proof. reflexivity. Qed.

Lemma fill_ok_inv host kw df :
  fill_ok host kw df = true ->
  (exists x y cx cy,
     emu_of (process_position_parameter (kw_left kw)) = Ok x /\
     emu_of (process_position_parameter (kw_top kw)) = Ok y /\
     emu_of (process_position_parameter (kw_width kw)) = Ok cx /\
     emu_of (process_position_parameter (kw_height kw)) = Ok cy) /\
  table_rows kw df <> 0%nat /\ table_cols kw df <> 0%nat /\
  (length (labels kw df) <=
     if kw_transposed kw then table_rows kw df else table_cols kw df)%nat /\
  (forall row col, (row < length (df_index df))%nat ->
     (col < length (df_columns df))%nat ->
     is_ok (data_text host kw df row col) = true).
Proof.
  unfold fill_ok. rewrite !andb_true_iff.
  intros (((((((Hl & Ht) & Hw) & Hh) & Hr) & Hc) & Hlab) & Hdata).
  apply is_ok_inv in Hl as [x Hl]. apply is_ok_inv in Ht as [y Ht].
  apply is_ok_inv in Hw as [cx Hw]. apply is_ok_inv in Hh as [cy Hh].
  split; [by exists x, y, cx, cy|].
  split; [by destruct (Nat.eqb_spec (table_rows kw df) 0)|].
  split; [by destruct (Nat.eqb_spec (table_cols kw df) 0)|].
  split; [by apply Nat.leb_le|].
  intros row col Hrow Hcol.
  rewrite forallb_forall in Hdata.
  specialize (Hdata row ltac:(apply in_seq; lia)).
  rewrite forallb_forall in Hdata.
  apply Hdata. apply in_seq. lia.
Qed.

(** The cells of the frame [add_table] creates are empty. *)
Lemma new_frame_empty name x y cx cy rows cols :
  frame_is (x, y, cx, cy) rows cols name (exactly (fun _ _ => empty_cell))
    (fun i c => c = {| column_width := initial_column_width cx cols i;
                       column_height := None |})
    {| shape_name := name; shape_left := x; shape_top := y;
       shape_width := cx; shape_height := cy;
       table := new_table rows cols cx |}.
Proof.
  pose proof (new_frame_is name x y cx cy rows cols) as [Hn Hg Hr Hl _ Hnc Hcl].
  split; try done.
  intros i j row c Hrow Hc. cbn in Hrow.
  apply lookup_replicate in Hrow as [-> _].
  by apply lookup_replicate in Hc as [-> _].
Qed.

(** A call whose arguments pass [fill_ok] reaches line 204 with the frame
    filled: what is left is the assignment of the widths and heights. *)
Lemma df_to_table_filled host kw w :
  fill_ok host kw (w_df w) = true ->
  exists g,
    df_to_table host kw w =
      assign_columns kw (length (w_slide w)) (world_with w g) /\
    frame_is
      (emu_default (kw_left kw), emu_default (kw_top kw),
       emu_default (kw_width kw), emu_default (kw_height kw))
      (table_rows kw (w_df w)) (table_cols kw (w_df w))
      (expected_name kw (w_slide w))
      (exactly (expected_cell host kw (w_df w)))
      (fun i c => c = {| column_width :=
                           initial_column_width (emu_default (kw_width kw))
                             (table_cols kw (w_df w)) i;
                         column_height := None |})
      g.
Proof.
  intros Hok.
  destruct (fill_ok_inv _ _ _ Hok)
    as ((x & y & cx & cy & Hl & Ht & Hw & Hh) & Hr & Hc & Hlab & Hdata).
  unfold emu_default. rewrite Hl, Ht, Hw, Hh.
  unfold df_to_table.
  rewrite (run_bind_ok df_shape _ w
             (length (df_index (w_df w)), length (df_columns (w_df w))) w)
    by reflexivity.
  unfold table_rows, table_cols, expected_name in *.
  destruct (kw_transposed kw) eqn:Htr.
  - rewrite run_bind_assoc.
    rewrite (run_bind_ok _ _ _ _ _
               (add_table_ok _ _ _ _ _ _ x y cx cy w Hl Ht Hw Hh Hr Hc)).
    pose proof (new_frame_empty
                  ("Table " ++ digits_of_nat (N.of_nat (S (length (w_slide w)))))
                  x y cx cy (length (df_index (w_df w)))
                  (length (df_columns (w_df w)) + 1)) as Hnew.
    destruct (fill_transposed_cells host kw w Hdata _ _ _ Htr Hlab
                ltac:(lia) _ Hnew) as (a & g & Hrun & -> & Hg).
    exists g. split; [|exact Hg]. by rewrite (run_bind_ok _ _ _ _ _ Hrun).
  - rewrite run_bind_assoc.
    rewrite (run_bind_ok _ _ _ _ _
               (add_table_ok _ _ _ _ _ _ x y cx cy w Hl Ht Hw Hh Hr Hc)).
    pose proof (new_frame_empty
                  ("Table " ++ digits_of_nat (N.of_nat (S (length (w_slide w)))))
                  x y cx cy (length (df_index (w_df w)) + 1)
                  (length (df_columns (w_df w)))) as Hnew.
    destruct (fill_vertical_cells host kw w Hdata _ _ _ Htr Hlab _ Hnew)
      as (a & g & Hrun & -> & Hg).
    exists g. split; [|exact Hg]. by rewrite (run_bind_ok _ _ _ _ _ Hrun).
Qed.

(** The frame a call that runs to its end leaves, cell by cell. *)
Lemma df_to_table_cells host kw w :
  call_ok host kw (w_df w) = true ->
  exists g,
    df_to_table host kw w = (Ok (length (w_slide w)), world_with w g) /\
    run_table host kw w = Some g /\
    frame_is
      (emu_default (kw_left kw), emu_default (kw_top kw),
       emu_default (kw_width kw), emu_default (kw_height kw))
      (table_rows kw (w_df w)) (table_cols kw (w_df w))
      (expected_name kw (w_slide w))
      (exactly (expected_cell host kw (w_df w)))
      (fun i c => c = expected_column kw (emu_default (kw_width kw))
                        (table_cols kw (w_df w)) i)
      g.
Proof.
  intros Hok. rewrite call_ok_fill_ok in Hok.
  apply andb_true_iff in Hok as [Hok Hch].
  apply andb_true_iff in Hok as [Hfill Hcw].
  destruct (df_to_table_filled host kw w Hfill) as (g1 & Hrun & Hg1).
  assert (Hcw' : kw_set_col_width kw = true ->
            (length (kw_col_width kw) <= table_cols kw (w_df w))%nat).
  { intros Hb. rewrite Hb in Hcw. by apply Nat.leb_le. }
  assert (Hch' : kw_set_col_height kw = true ->
            (length (kw_col_height kw) <= table_cols kw (w_df w))%nat).
  { intros Hb. rewrite Hb in Hch. by apply Nat.leb_le. }
  destruct (assign_columns_spec w _ _ _ kw _ _ (emu_default (kw_width kw))
              Hcw' Hch' g1 Hg1) as (a & g & Hrun2 & -> & Hg).
  exists g. rewrite Hrun2 in Hrun.
  split; [exact Hrun|]. split; [by apply run_table_world|exact Hg].
Qed.

(** * Further properties of [df_to_table] *)





(** X12: with [white_backgr] true no cell is formatted: every cell of the
    table has its text and nothing else assigned, in either orientation. *)
Theorem white_backgr_leaves_cells_unformatted (host : Host) (kw : Kwargs)
  (w : World) :
  call_ok host kw (w_df w) = true ->
  kw_white_backgr kw = true ->
  exists g,
    run_table host kw w = Some g /\
    forall i j,
      (i < table_rows kw (w_df w))%nat -> (j < table_cols kw (w_df w))%nat ->
      cell_at g i j = Some (text_cell (expected_text host kw (w_df w) i j)).
Proof.
  intros Hok Hwb.
  destruct (df_to_table_cells host kw w Hok) as (g & _ & Hrun & Hg).
  exists g. split; [exact Hrun|]. intros i j Hi Hj.
  rewrite (frame_cell_at _ _ _ _ _ _ _ _ _ Hg Hi Hj).
  unfold expected_cell. by rewrite Hwb.
Qed.

Lemma white_backgr_leaves_cells_unformatted_witness :
  call_ok strict_host plain_kwargs (w_df sample_world) = true /\
  exists g,
    run_table strict_host plain_kwargs sample_world = Some g /\
    cell_at g 0 0 = Some (text_cell "a") /\
    cell_at g 2 1 = Some (text_cell "4000000").
Proof.
  split; [reflexivity|].
  destruct (white_backgr_leaves_cells_unformatted strict_host plain_kwargs
              sample_world eq_refl eq_refl) as (g & Hg & Hcells).
  exists g. split; [exact Hg|]. split.
  - rewrite (Hcells 0%nat 0%nat) by (cbn; lia). reflexivity.
  - rewrite (Hcells 2%nat 1%nat) by (cbn; lia). reflexivity.
Defined.









Lemma well_formed_inv df :
  well_formed df = true ->
  length (df_values df) = length (df_index df) /\
  forall i row, df_values df !! i = Some row ->
    length row = length (df_columns df).
Proof.
  unfold well_formed. intros [Hlen Hrows]%andb_true_iff.
  apply Nat.eqb_eq in Hlen. split; [exact Hlen|].
  intros i row Hrow. rewrite forallb_forall in Hrows.
  apply Nat.eqb_eq, Hrows. apply list_elem_of_In. by eapply list_elem_of_lookup_2.
Qed.





(** * Calls that raise while the frame is filled *)

Section Failures.
Variable w0 : World.
Local Abbreviation shp := (length (w_slide w0)).

Lemma fails_bind_now {A B} (m : M A) (k : A -> M B) P e S :
  fails w0 P m e S -> fails w0 P (m ≫= k) e S.
Proof.
  intros Hm g Hg. destruct (Hm g Hg) as (g' & Hrun & Hs).
  exists g'. split; [|done]. by apply run_bind_raise.
Qed.

Lemma fails_bind_later {A B} (m : M A) (k : A -> M B) P Q e S :
  triple w0 P m Q -> (forall a, fails w0 (Q a) (k a) e S) ->
  fails w0 P (m ≫= k) e S.
Proof.
  intros Hm Hk g Hg. destruct (Hm g Hg) as (a & g1 & Hrun & Hq).
  destruct (Hk a g1 Hq) as (g' & Hrun' & Hs).
  exists g'. split; [|done]. by rewrite (run_bind_ok _ _ _ _ _ Hrun).
Qed.

Lemma fails_conseq {A} (m : M A) (P P' : GraphicFrame -> Prop) e
  (S S' : GraphicFrame -> Prop) :
  (forall g, P' g -> P g) -> (forall g, S g -> S' g) ->
  fails w0 P m e S -> fails w0 P' m e S'.
Proof.
  intros HP HS Hm g Hg. destruct (Hm g (HP g Hg)) as (g' & Hrun & Hs).
  exists g'. auto.
Qed.

Lemma fails_post {A} (m : M A) (P : GraphicFrame -> Prop) e
  (S S' : GraphicFrame -> Prop) :
  fails w0 P m e S -> (forall g, S g -> S' g) -> fails w0 P m e S'.
Proof. intros Hm HS. by apply (fails_conseq m P P e S S'). Qed.

Lemma fails_read {A B} (m : M A) (v : A) (k : A -> M B) P e S :
  (forall g, m (world_with w0 g) = (Ok v, world_with w0 g)) ->
  fails w0 P (k v) e S -> fails w0 P (m ≫= k) e S.
Proof.
  intros Hm Hk g Hg. destruct (Hk g Hg) as (g' & Hrun & Hs).
  exists g'. split; [|done]. by rewrite (run_bind_ok _ _ _ _ _ (Hm g)).
Qed.

Lemma fails_lift {A B} (r : res A) (k : A -> M B) (P : GraphicFrame -> Prop) e :
  r = Raise e -> fails w0 P (lift r ≫= k) e P.
Proof. intros -> g Hg. by exists g. Qed.

(** A loop that raises in its iteration [k], after [k] iterations that
    return. *)
Lemma fails_for_each {A} (l : list A) (body : A -> M unit)
  (I : nat -> GraphicFrame -> Prop) k x e S :
  l !! k = Some x ->
  (forall j y, (j < k)%nat -> l !! j = Some y ->
     triple w0 (I j) (body y) (fun _ => I (Datatypes.S j))) ->
  fails w0 (I k) (body x) e S ->
  fails w0 (I 0%nat) (for_each l body) e S.
Proof.
  revert I k. induction l as [|y l IH]; intros I k Hx Hbefore Hfail; [done|].
  cbn [for_each]. destruct k as [|k].
  - injection Hx as ->. by apply fails_bind_now.
  - eapply fails_bind_later.
    + apply (Hbefore 0%nat y); [lia|done].
    + intros ?. apply (IH (fun j => I (Datatypes.S j)) k); [done| |done].
      intros j z Hj Hz. apply (Hbefore (Datatypes.S j) z); [lia|done].
Qed.

Lemma fails_for_range n (body : nat -> M unit)
  (I : nat -> GraphicFrame -> Prop) k e S :
  (k < n)%nat ->
  (forall j, (j < k)%nat ->
     triple w0 (I j) (body j) (fun _ => I (Datatypes.S j))) ->
  fails w0 (I k) (body k) e S ->
  fails w0 (I 0%nat) (for_range n body) e S.
Proof.
  intros Hk Hbefore Hfail. unfold for_range.
  apply (fails_for_each (seq 0 n) body I k k); [by apply lookup_seq_lt| |done].
  intros j y Hj [-> _]%lookup_seq. by apply Hbefore.
Qed.

Variables (geom : Z * Z * Z * Z) (R C : nat).

(** [cell] outside the grid raises [IndexError] and changes nothing. *)
Lemma fails_cell_update name Pc Pcol i j f :
  (R <= i)%nat \/ (i < R /\ C <= j)%nat ->
  fails w0 (frame_is geom R C name Pc Pcol) (cell_update shp i j f) IndexError
    (frame_is geom R C name Pc Pcol).
Proof.
  intros Hout g Hg. exists g. split; [|done].
  unfold cell_update, shape_update, world_with. cbn [w_slide w_df].
  rewrite list_lookup_middle by done.
  destruct Hg as [Hn Hgm Hr Hl Hcell Hnc Hcl].
  unfold assign_cell, list_index. destruct Hout as [Hi|[Hi Hj]].
  - by rewrite lookup_ge_None_2 by lia.
  - destruct (lookup_lt_is_Some_2 (cells (table g)) i) as [row Hrow]; [lia|].
    rewrite Hrow. cbn.
    by rewrite lookup_ge_None_2 by (rewrite (Hl i row Hrow); lia).
Qed.
End Failures.

Section FailingBlocks.
Variable w0 : World.
Local Abbreviation shp := (length (w_slide w0)).
Variables (geom : Z * Z * Z * Z) (name : string).
Variable Pcol : nat -> Column -> Prop.

(** Lines 165-166 with more names than the table has columns: the name
    after the last column has no cell. *)
Lemma insert_column_names_fails R C names :
  (C < length names)%nat -> (0 < R)%nat ->
  fails w0 (frame_is geom R C name (shows (fun _ _ => "")) Pcol)
    (insert_column_names shp names) IndexError
    (frame_is geom R C name
       (shows (fun i j => match i with O => label_at names j | S _ => "" end))
       Pcol).
Proof.
  intros Hlen HR. unfold insert_column_names.
  pose (I := fun k : nat => frame_is geom R C name
    (shows (fun i j => match i with
                       | O => if decide (j < k)%nat then label_at names j else ""
                       | S _ => ""
                       end)) Pcol).
  destruct (lookup_lt_is_Some_2 names C Hlen) as [x Hx].
  eapply fails_conseq;
    [| |apply (fails_for_each w0 _ _ I C (C, x) IndexError (I C))].
  - intros g. apply frame_is_mono; [|done].
    intros i j c _ _. unfold shows. destruct i; [|done].
    case_decide; [lia|done].
  - intros g. apply frame_is_mono; [|done].
    intros i j c _ Hj. unfold shows. destruct i; [|done].
    case_decide; [done|lia].
  - by apply lookup_enumerate.
  - intros k [i y] Hk [-> Hy]%lookup_enumerate.
    apply triple_set_text; [lia..| |].
    + case_decide; [|lia]. by apply label_at_lookup.
    + intros i' j' Hne. destruct i'; [|done].
      repeat case_decide; try done; lia.
  - apply fails_cell_update. right. lia.
Qed.

(** Lines 113-114 with more names than the table has rows. *)
Lemma insert_row_names_fails R C names :
  (R < length names)%nat -> (0 < C)%nat ->
  fails w0 (frame_is geom R C name (shows (fun _ _ => "")) Pcol)
    (insert_row_names shp names) IndexError
    (frame_is geom R C name
       (shows (fun i j => match j with O => label_at names i | S _ => "" end))
       Pcol).
Proof.
  intros Hlen HC. unfold insert_row_names.
  pose (I := fun k : nat => frame_is geom R C name
    (shows (fun i j => match j with
                       | O => if decide (i < k)%nat then label_at names i else ""
                       | S _ => ""
                       end)) Pcol).
  destruct (lookup_lt_is_Some_2 names R Hlen) as [x Hx].
  eapply fails_conseq;
    [| |apply (fails_for_each w0 _ _ I R (R, x) IndexError (I R))].
  - intros g. apply frame_is_mono; [|done].
    intros i j c _ _. unfold shows. destruct j; [|done].
    case_decide; [lia|done].
  - intros g. apply frame_is_mono; [|done].
    intros i j c Hi _. unfold shows. destruct j; [|done].
    case_decide; [done|lia].
  - by apply lookup_enumerate.
  - intros k [i y] Hk [-> Hy]%lookup_enumerate.
    apply triple_set_text; [lia..| |].
    + case_decide; [|lia]. by apply label_at_lookup.
    + intros i' j' Hne. destruct j'; [|done].
      repeat case_decide; try done; lia.
  - apply fails_cell_update. left. lia.
Qed.

Variables (host : Host) (fs : list string).
Variables (m : list (list pyvalue)) (rows cols : nat).
Local Abbreviation data := (matrix_text host (Some fs) m).

Hypothesis short : (length fs < cols)%nat.
Hypothesis a_row : (0 < rows)%nat.
Hypothesis before_ok :
  forall col, (col < length fs)%nat -> is_ok (data 0%nat col) = true.
Hypothesis value_found : is_ok (matrix_index m 0 (length fs)) = true.

Lemma before_ok_inv col :
  (col < length fs)%nat ->
  exists val text, matrix_index m 0 col = Ok val /\
    cell_string host (Some fs) val col = Ok text /\
    text_of (data 0%nat col) = text.
Proof.
  intros Hc. specialize (before_ok col Hc).
  unfold matrix_text in *.
  destruct (matrix_index m 0 col) as [val|]; [|done]. cbn in *.
  destruct (list_index fs col ≫= _) as [text|] eqn:Ht; [|done].
  exists val, text. repeat split; done.
Qed.

(** The statement that looks up the format of the column [length fs]. *)
Lemma format_lookup_fails {B} (P : GraphicFrame -> Prop) (k : string -> M B) :
  fails w0 P
    (val ← lift (matrix_index m 0 (length fs));
     text ← lift (cell_string host (Some fs) val (length fs));
     k text) IndexError P.
Proof.
  destruct (is_ok_inv _ value_found) as [val Hval].
  apply (fails_read w0 _ val); [by rewrite Hval|].
  apply fails_lift. unfold cell_string, list_index.
  by rewrite lookup_ge_None_2 by lia.
Qed.

(** Lines 170-179 with fewer formats than columns: the first row of values
    is written up to the column that has no format. *)
Lemma insert_values_fails E :
  fails w0 (frame_is geom (rows + 1) cols name (shows E) Pcol)
    (insert_values host (Some fs) shp rows cols m) IndexError
    (frame_is geom (rows + 1) cols name
       (shows (fun i j =>
          match i with
          | O => E O j
          | S row =>
              if decide (row = 0 /\ j < length fs)%nat
              then text_of (data 0%nat j) else E (S row) j
          end)) Pcol).
Proof.
  unfold insert_values.
  pose (F := fun (c : nat) (i j : nat) =>
    match i with
    | O => E O j
    | S row =>
        if decide (row = 0 /\ j < c)%nat
        then text_of (data 0%nat j) else E (S row) j
    end).
  pose (J := fun c => frame_is geom (rows + 1) cols name (shows (F c)) Pcol).
  apply (fails_for_range w0 rows _ (fun _ => frame_is geom (rows + 1) cols name
                                       (shows E) Pcol) 0%nat);
    [done|intros; lia|].
  eapply fails_conseq;
    [| |apply (fails_for_range w0 cols _ J (length fs) IndexError
                 (J (length fs)))].
  - intros g. apply frame_is_mono; [|done].
    intros i j c _ _. unfold shows, F. destruct i; [done|].
    case_decide; [lia|done].
  - done.
  - done.
  - intros c Hc.
    destruct (before_ok_inv c Hc) as (val & text & Hval & Htext & Hdata).
    eapply triple_lift; [exact Hval|].
    eapply triple_lift; [exact Htext|].
    apply triple_set_text; [lia..| |].
    + unfold F. case_decide; [exact Hdata|lia].
    + intros i' j' Hne. unfold F. destruct i'; [done|].
      repeat case_decide; try done; lia.
  - apply format_lookup_fails.
Qed.

(** Lines 118-125 with fewer formats than columns. *)
Lemma insert_values_transposed_fails E :
  fails w0 (frame_is geom rows (cols + 1) name (shows E) Pcol)
    (insert_values_transposed host (Some fs) shp rows cols m) IndexError
    (frame_is geom rows (cols + 1) name
       (shows (fun i j =>
          match j with
          | O => E i O
          | S col =>
              if decide (i = 0 /\ col < length fs)%nat
              then text_of (data 0%nat col) else E i (S col)
          end)) Pcol).
Proof.
  unfold insert_values_transposed.
  pose (F := fun (c : nat) (i j : nat) =>
    match j with
    | O => E i O
    | S col =>
        if decide (i = 0 /\ col < c)%nat
        then text_of (data 0%nat col) else E i (S col)
    end).
  pose (J := fun c => frame_is geom rows (cols + 1) name (shows (F c)) Pcol).
  apply (fails_for_range w0 rows _ (fun _ => frame_is geom rows (cols + 1) name
                                       (shows E) Pcol) 0%nat);
    [done|intros; lia|].
  eapply fails_conseq;
    [| |apply (fails_for_range w0 cols _ J (length fs) IndexError
                 (J (length fs)))].
  - intros g. apply frame_is_mono; [|done].
    intros i j c _ _. unfold shows, F. destruct j; [done|].
    case_decide; [lia|done].
  - done.
  - done.
  - intros c Hc.
    destruct (before_ok_inv c Hc) as (val & text & Hval & Htext & Hdata).
    eapply triple_lift; [exact Hval|].
    eapply triple_lift; [exact Htext|].
    rewrite (Nat.add_1_r c).
    apply triple_set_text; [lia..| |].
    + unfold F. case_decide; [exact Hdata|lia].
    + intros i' j' Hne. unfold F. destruct j'; [done|].
      repeat case_decide; try done; lia.
  - apply format_lookup_fails.
Qed.
End FailingBlocks.

(** A call whose frame is added, and whose filling raises. *)
Lemma df_to_table_fill_fails host kw w e (S : GraphicFrame -> Prop) :
  frame_ok kw (w_df w) = true ->
  fails w (fresh_frame kw w (fun _ _ => ""))
    (if kw_transposed kw
     then fill_transposed host kw (length (w_slide w))
            (length (df_index (w_df w))) (length (df_columns (w_df w)))
     else fill_vertical host kw (length (w_slide w))
            (length (df_index (w_df w))) (length (df_columns (w_df w))))
    e S ->
  exists g, df_to_table host kw w = (Raise e, world_with w g) /\ S g.
Proof.
  unfold frame_ok. rewrite !andb_true_iff.
  intros (((((Hl & Ht) & Hw) & Hh) & Hr) & Hc) Hfill.
  apply is_ok_inv in Hl as [x Hl]. apply is_ok_inv in Ht as [y Ht].
  apply is_ok_inv in Hw as [cx Hw]. apply is_ok_inv in Hh as [cy Hh].
  destruct (Nat.eqb_spec (table_rows kw (w_df w)) 0) as [|Hr']; [done|].
  destruct (Nat.eqb_spec (table_cols kw (w_df w)) 0) as [|Hc']; [done|].
  revert Hfill. unfold fresh_frame, emu_default. rewrite Hl, Ht, Hw, Hh.
  unfold df_to_table.
  rewrite (run_bind_ok df_shape _ w
             (length (df_index (w_df w)), length (df_columns (w_df w))) w)
    by reflexivity.
  unfold table_rows, table_cols in *.
  destruct (kw_transposed kw) eqn:Htr; intros Hfill.
  - pose proof (new_frame_empty
                  ("Table " ++ digits_of_nat (N.of_nat (Datatypes.S (length (w_slide w)))))
                  x y cx cy (length (df_index (w_df w)))
                  (length (df_columns (w_df w)) + 1)) as Hnew.
    eapply (frame_is_mono _ _ _ _ _ (shows (fun _ _ => ""))
              _ (fun _ _ => True)) in Hnew;
      [|by intros i j c _ _ ->|done].
    destruct (Hfill _ Hnew) as (g & Hrun & Hs).
    exists g. split; [|done].
    apply run_bind_raise.
    by rewrite (run_bind_ok _ _ _ _ _
                  (add_table_ok _ _ _ _ _ _ x y cx cy w Hl Ht Hw Hh Hr' Hc')).
  - pose proof (new_frame_empty
                  ("Table " ++ digits_of_nat (N.of_nat (Datatypes.S (length (w_slide w)))))
                  x y cx cy (length (df_index (w_df w)) + 1)
                  (length (df_columns (w_df w)))) as Hnew.
    eapply (frame_is_mono _ _ _ _ _ (shows (fun _ _ => ""))
              _ (fun _ _ => True)) in Hnew;
      [|by intros i j c _ _ ->|done].
    destruct (Hfill _ Hnew) as (g & Hrun & Hs).
    exists g. split; [|done].
    apply run_bind_raise.
    by rewrite (run_bind_ok _ _ _ _ _
                  (add_table_ok _ _ _ _ _ _ x y cx cy w Hl Ht Hw Hh Hr' Hc')).
Qed.

(** X18 (lines 109-114 and 161-166 of [df_to_table]): a label list longer
    than the first row of the table (the first column of a transposed
    table) makes the call raise [IndexError].  The table is on the slide
    by then: its label cells show the names that fit, its other cells are
    empty. *)
Theorem names_too_long (host : Host) (kw : Kwargs) (w : World) :
  frame_ok kw (w_df w) = true ->
  (label_count kw (w_df w) < length (labels kw (w_df w)))%nat ->
  exists g,
    df_to_table host kw w =
      (Raise IndexError,
       {| w_df := w_df w; w_slide := w_slide w ++ [TableShape g] |}) /\
    forall i j,
      (i < table_rows kw (w_df w))%nat -> (j < table_cols kw (w_df w))%nat ->
      cell_text_at g i j = Some (texts_until host kw (w_df w) 0 i j).
Proof.
  intros Hok Hlong.
  destruct (df_to_table_fill_fails host kw w IndexError
              (fresh_frame kw w (texts_until host kw (w_df w) 0)) Hok)
    as (g & Hrun & Hg); cycle 1.
  { exists g. split; [exact Hrun|]. intros i j Hi Hj.
    exact (frame_cell_text_at _ _ _ _ _ _ _ _ _ Hg Hi Hj). }
  unfold fresh_frame, label_count, table_rows, table_cols, texts_until in *.
  destruct (kw_transposed kw) eqn:Htr.
  - unfold fill_transposed.
    apply (fails_read w _ (labels kw (w_df w))).
    { intros g. unfold labels. rewrite Htr. by destruct (kw_rownames kw). }
    apply fails_bind_now.
    eapply fails_post; [apply insert_row_names_fails; [exact Hlong|lia]|].
    intros g. apply frame_is_mono; [|done].
    intros i j c _ _. unfold shows. destruct j; [done|].
    case_decide; [lia|done].
  - unfold fill_vertical.
    apply (fails_read w _ (labels kw (w_df w))).
    { intros g. unfold labels. rewrite Htr. by destruct (kw_colnames kw). }
    apply fails_bind_now.
    eapply fails_post; [apply insert_column_names_fails; [exact Hlong|lia]|].
    intros g. apply frame_is_mono; [|done].
    intros i j c _ _. unfold shows. destruct i; [done|].
    case_decide; [lia|done].
Qed.

Lemma names_too_long_witness :
  frame_ok long_names_kwargs (w_df sample_world) = true /\
  (label_count long_names_kwargs (w_df sample_world) <
     length (labels long_names_kwargs (w_df sample_world)))%nat /\
  exists g,
    fst (df_to_table strict_host long_names_kwargs sample_world) =
      Raise IndexError /\
    w_slide (snd (df_to_table strict_host long_names_kwargs sample_world)) =
      [OtherShape "Title 1"; TableShape g] /\
    cell_text_at g 0 1 = Some "y" /\ cell_text_at g 1 0 = Some "".
Proof.
  assert (Hlong : (label_count long_names_kwargs (w_df sample_world) <
                     length (labels long_names_kwargs (w_df sample_world)))%nat)
    by (cbn; lia).
  split; [reflexivity|]. split; [exact Hlong|].
  destruct (names_too_long strict_host long_names_kwargs sample_world
              eq_refl Hlong) as (g & Hrun & Hcells).
  exists g. rewrite Hrun. split; [reflexivity|]. split; [reflexivity|]. split.
  - exact (Hcells 0%nat 1%nat ltac:(cbn; lia) ltac:(cbn; lia)).
  - exact (Hcells 1%nat 0%nat ltac:(cbn; lia) ltac:(cbn; lia)).
Defined.

(** X19 (lines 118-125 and 170-179 of [df_to_table]): [col_formatters]
    needs a format for every column.  With a shorter list the call raises
    [IndexError] at the first value of the column that has no format; the
    table is on the slide by then, with its labels and the values of the
    first row before that column. *)
Theorem formatters_too_short (host : Host) (kw : Kwargs) (w : World)
  (fs : list string) :
  frame_ok kw (w_df w) = true ->
  well_formed (w_df w) = true ->
  (length (labels kw (w_df w)) <= label_count kw (w_df w))%nat ->
  kw_col_formatters kw = Some fs ->
  (length fs < length (df_columns (w_df w)))%nat ->
  (0 < length (df_index (w_df w)))%nat ->
  (forall col, (col < length fs)%nat ->
     is_ok (data_text host kw (w_df w) 0 col) = true) ->
  exists g,
    df_to_table host kw w =
      (Raise IndexError,
       {| w_df := w_df w; w_slide := w_slide w ++ [TableShape g] |}) /\
    forall i j,
      (i < table_rows kw (w_df w))%nat -> (j < table_cols kw (w_df w))%nat ->
      cell_text_at g i j =
        Some (texts_until host kw (w_df w) (length fs) i j).
Proof.
  intros Hok [Hlen Hrows]%well_formed_inv Hlab Hfmt Hshort Hrow Hbefore.
  assert (Hval : is_ok (matrix_index (df_values (w_df w)) 0 (length fs)) = true).
  { destruct (lookup_lt_is_Some_2 (df_values (w_df w)) 0) as [r Hr]; [lia|].
    destruct (lookup_lt_is_Some_2 r (length fs)) as [val Hval].
    { rewrite (Hrows 0%nat r Hr). lia. }
    unfold matrix_index, list_index. rewrite Hr. cbn. by rewrite Hval. }
  unfold data_text in Hbefore. rewrite Hfmt in Hbefore.
  destruct (df_to_table_fill_fails host kw w IndexError
              (fresh_frame kw w (texts_until host kw (w_df w) (length fs))) Hok)
    as (g & Hrun & Hg); cycle 1.
  { exists g. split; [exact Hrun|]. intros i j Hi Hj.
    exact (frame_cell_text_at _ _ _ _ _ _ _ _ _ Hg Hi Hj). }
  unfold fresh_frame, label_count, table_rows, table_cols, texts_until,
    data_text in *.
  rewrite Hfmt.
  destruct (kw_transposed kw) eqn:Htr.
  - unfold fill_transposed. rewrite Hfmt.
    apply (fails_read w _ (labels kw (w_df w))).
    { intros g. unfold labels. rewrite Htr. by destruct (kw_rownames kw). }
    eapply fails_bind_later;
      [apply insert_row_names_spec; [done|lia]|intros ?].
    apply (fails_read w _ (df_values (w_df w))); [done|].
    apply fails_bind_now.
    eapply fails_post;
      [apply insert_values_transposed_fails;
         [exact Hshort|exact Hrow|exact Hbefore|exact Hval]|].
    intros g. apply frame_is_mono; [|done].
    intros i j c _ _. unfold shows. by destruct j.
  - unfold fill_vertical. rewrite Hfmt.
    apply (fails_read w _ (labels kw (w_df w))).
    { intros g. unfold labels. rewrite Htr. by destruct (kw_colnames kw). }
    eapply fails_bind_later;
      [apply insert_column_names_spec; [done|lia]|intros ?].
    apply (fails_read w _ (df_values (w_df w))); [done|].
    apply fails_bind_now.
    eapply fails_post;
      [apply insert_values_fails;
         [exact Hshort|exact Hrow|exact Hbefore|exact Hval]|].
    intros g. apply frame_is_mono; [|done].
    intros i j c _ _. unfold shows. by destruct i.
Qed.

Lemma formatters_too_short_witness :
  frame_ok short_formatters_kwargs (w_df sample_world) = true /\
  well_formed (w_df sample_world) = true /\
  exists g,
    fst (df_to_table strict_host short_formatters_kwargs sample_world) =
      Raise IndexError /\
    w_slide (snd (df_to_table strict_host short_formatters_kwargs
                    sample_world)) =
      [OtherShape "Title 1"; TableShape g] /\
    cell_text_at g 1 0 = Some "1,000" /\ cell_text_at g 1 1 = Some "".
Proof.
  split; [reflexivity|]. split; [reflexivity|].
  assert (Hlab : (length (labels short_formatters_kwargs (w_df sample_world)) <=
                    label_count short_formatters_kwargs (w_df sample_world))%nat)
    by (cbn; lia).
  assert (Hshort : (length [","] < length (df_columns (w_df sample_world)))%nat)
    by (cbn; lia).
  assert (Hrow : (0 < length (df_index (w_df sample_world)))%nat)
    by (cbn; lia).
  assert (Hbefore : forall col, (col < length [","])%nat ->
            is_ok (data_text strict_host short_formatters_kwargs
                     (w_df sample_world) 0 col) = true).
  { intros [|col] Hcol; [reflexivity|cbn in Hcol; lia]. }
  destruct (formatters_too_short strict_host short_formatters_kwargs
              sample_world [","] eq_refl eq_refl Hlab eq_refl Hshort Hrow
              Hbefore) as (g & Hrun & Hcells).
  exists g. rewrite Hrun. split; [reflexivity|]. split; [reflexivity|]. split.
  - exact (Hcells 1%nat 0%nat ltac:(cbn; lia) ltac:(cbn; lia)).
  - exact (Hcells 1%nat 1%nat ltac:(cbn; lia) ltac:(cbn; lia)).
Defined.
